(** * Petstore API server: cache, HTTP client, schema validator, catalog
      builder and tool executor.

    A shallow embedding of the TypeScript sources

      - [Cache]            (utils/cache.ts)
      - [HttpClient]       (utils/http-client.ts)
      - [SchemaValidator]  (utils/schema-validator.ts)
      - [OpenApiLoader]    (tools/openapi-loader.ts)
      - [ToolExecutor]     (tools/tool-executor.ts)

    Stateful code is written in a small state-and-exception monad over a
    [World] that holds the clock, the cache and the trace of the effects
    performed (cache reads and writes, requests, attempts put on the wire,
    delays waited).  The remote side is a function from attempts to
    replies.  Calls to the logger are left out: they print and return.

    JavaScript data: numbers are integers ([Z]); strings are their UTF-8
    bytes; objects built by assignment are association lists in insertion
    order; the argument object of a call is a finite map of its own
    properties. *)

From Stdlib Require Import ZArith Ascii String Lia.
From stdpp Require Import gmap strings list pretty.

Open Scope string_scope.
Open Scope list_scope.
Set Warnings "-register-all".

(** ** JavaScript values and the built-ins the sources call *)

Module JS.

(** The values that reach the code: JSON values plus [undefined].
    Numbers are the integers (no fractional part, no NaN or infinities). *)
Inductive Value :=
| VUndefined
| VNull
| VBool (b : bool)
| VNum (n : Z)
| VStr (s : string)
| VArr (items : list Value)
| VObj (fields : list (string * Value)).

Definition dquote : string := String "034"%char EmptyString.
Definition backslash : string := String "092"%char EmptyString.

(** [o[k]] on an object built by successive assignments: an association
    list in insertion order, which is the order in which JavaScript
    enumerates property names that are not array indices. *)
Fixpoint obj_get {A} (o : list (string * A)) (k : string) : option A :=
  match o with
  | [] => None
  | (k', v) :: o' => if String.eqb k' k then Some v else obj_get o' k
  end.

(** [o[k] = v]: an existing key keeps its place, a new key goes last. *)
Fixpoint obj_set {A} (o : list (string * A)) (k : string) (v : A)
  : list (string * A) :=
  match o with
  | [] => [(k, v)]
  | (k', v') :: o' =>
      if String.eqb k' k then (k', v) :: o' else (k', v') :: obj_set o' k v
  end.

(** [xs.join(sep)] on strings. *)
Fixpoint join (sep : string) (xs : list string) : string :=
  match xs with
  | [] => ""
  | [x] => x
  | x :: xs' => x +:+ sep +:+ join sep xs'
  end.

(** [String(v)]. *)
Fixpoint String_ (v : Value) : string :=
  match v with
  | VUndefined => "undefined"
  | VNull => "null"
  | VBool true => "true"
  | VBool false => "false"
  | VNum n => pretty n
  | VStr s => s
  | VArr items =>
      join ","
        (map (fun x => match x with
                       | VUndefined | VNull => ""
                       | _ => String_ x
                       end) items)
  | VObj _ => "[object Object]"
  end.

Definition hex_digit (n : N) : ascii :=
  if (n <? 10)%N then ascii_of_N (48 + n) else ascii_of_N (55 + n).

Definition hex2 (c : ascii) : string :=
  let n := N_of_ascii c in
  String (hex_digit (n / 16)) (String (hex_digit (n mod 16)) EmptyString).

Definition in_range (lo hi : N) (c : ascii) : bool :=
  let n := N_of_ascii c in ((lo <=? n) && (n <=? hi))%N.

Definition is_alnum (c : ascii) : bool :=
  in_range 48 57 c || in_range 65 90 c || in_range 97 122 c.

(** The characters [encodeURIComponent] leaves alone:
    [A-Z a-z 0-9 - _ . ! ~ * ' ( )]. *)
Definition uri_unreserved (c : ascii) : bool :=
  is_alnum c
  || bool_decide (N_of_ascii c ∈ [45; 95; 46; 33; 126; 42; 39; 40; 41]%N).

(** [encodeURIComponent(s)], on the UTF-8 bytes of [s]. *)
Fixpoint encodeURIComponent (s : string) : string :=
  match s with
  | EmptyString => EmptyString
  | String c s' =>
      if uri_unreserved c then String c (encodeURIComponent s')
      else "%" +:+ hex2 c +:+ encodeURIComponent s'
  end.

Fixpoint string_drop (n : nat) (s : string) : string :=
  match n, s with
  | O, _ => s
  | S n', String _ s' => string_drop n' s'
  | S _, EmptyString => EmptyString
  end.

(** [s.replace(pat, repl)] with a string pattern: the first occurrence
    only.  The replacement is inserted as it is; the sources only pass
    the output of [encodeURIComponent], which holds no [$]. *)
Fixpoint replace (pat repl s : string) : string :=
  if String.prefix pat s then repl +:+ string_drop (String.length pat) s
  else match s with
       | EmptyString => EmptyString
       | String c s' => String c (replace pat repl s')
       end.

(** [s.match(/{[^}]+}/g)]: the matches from left to right ([[]] stands
    for [null]).  [open] is the text read since an opening brace that
    has not been closed yet. *)
Fixpoint match_tokens_from (open : option string) (s : string)
  : list string :=
  match s with
  | EmptyString => []
  | String c s' =>
      match open with
      | None =>
          if Ascii.eqb c "{" then match_tokens_from (Some "") s'
          else match_tokens_from None s'
      | Some b =>
          if Ascii.eqb c "}" then
            if String.eqb b "" then match_tokens_from None s'
            else ("{" +:+ b +:+ "}") :: match_tokens_from None s'
          else match_tokens_from (Some (b +:+ String c EmptyString)) s'
      end
  end.

Definition match_tokens (s : string) : list string :=
  match_tokens_from None s.

(** [s.includes(sub)]. *)
Fixpoint str_includes (sub s : string) : bool :=
  String.prefix sub s
  || match s with
     | EmptyString => false
     | String _ s' => str_includes sub s'
     end.

(** [s.toLowerCase()] on ASCII letters. *)
Fixpoint toLowerCase (s : string) : string :=
  match s with
  | EmptyString => EmptyString
  | String c s' =>
      String (if in_range 65 90 c then ascii_of_N (N_of_ascii c + 32) else c)
             (toLowerCase s')
  end.

Fixpoint toUpperCase (s : string) : string :=
  match s with
  | EmptyString => EmptyString
  | String c s' =>
      String (if in_range 97 122 c then ascii_of_N (N_of_ascii c - 32) else c)
             (toUpperCase s')
  end.

(** JSON string literal: quotes, with the two-character escapes. *)
Fixpoint json_escape (s : string) : string :=
  match s with
  | EmptyString => EmptyString
  | String c s' =>
      let n := N_of_ascii c in
      (if (n =? 34)%N then backslash +:+ dquote
       else if (n =? 92)%N then backslash +:+ backslash
       else if (n =? 8)%N then backslash +:+ "b"
       else if (n =? 9)%N then backslash +:+ "t"
       else if (n =? 10)%N then backslash +:+ "n"
       else if (n =? 12)%N then backslash +:+ "f"
       else if (n =? 13)%N then backslash +:+ "r"
       else if (n <? 32)%N then backslash +:+ "u00" +:+ toLowerCase (hex2 c)
       else String c EmptyString) +:+ json_escape s'
  end.

Definition json_quote (s : string) : string :=
  dquote +:+ json_escape s +:+ dquote.

(** [JSON.stringify(v)]; a property whose value is [undefined] is left
    out, an [undefined] array element prints as [null]. *)
Fixpoint JSON_stringify (v : Value) : string :=
  match v with
  | VUndefined => "undefined"
  | VNull => "null"
  | VBool true => "true"
  | VBool false => "false"
  | VNum n => pretty n
  | VStr s => json_quote s
  | VArr items =>
      "[" +:+ join ","
        (map (fun x => match x with
                       | VUndefined => "null"
                       | _ => JSON_stringify x
                       end) items) +:+ "]"
  | VObj fields =>
      "{" +:+ join ","
        ((fix props (fs : list (string * Value)) : list string :=
            match fs with
            | [] => []
            | (_, VUndefined) :: fs' => props fs'
            | (k, x) :: fs' =>
                (json_quote k +:+ ":" +:+ JSON_stringify x) :: props fs'
            end) fields) +:+ "}"
  end.

End JS.
Import JS.

(** ** Exceptions and results *)

(** An HTTP response as axios hands it over; [ApiResponse] has the same
    four fields. *)
Record AxiosResponse := mkResponse {
  status : Z;
  statusText : string;
  headers : list (string * string);
  data : Value;
}.

Record ApiResponse := mkApiResponse {
  api_status : Z;
  api_statusText : string;
  api_headers : list (string * string);
  api_data : Value;
}.

(** What the sources throw. *)
Inductive Exn :=
| Error (message : string)                     (* [new Error(message)] *)
| AxiosError (message : string) (response : option AxiosResponse)
                                  (* a rejected attempt, [error.response] *)
| TypeError (message : string)
| ThrownUndefined.                (* [throw lastError] with nothing assigned *)

(** [error.message]; reading it off [undefined] is itself a TypeError. *)
Definition exn_message (e : Exn) : option string :=
  match e with
  | Error m | AxiosError m _ | TypeError m => Some m
  | ThrownUndefined => None
  end.

Inductive Result (A : Type) :=
| Ok (a : A)
| Throw (e : Exn).
Arguments Ok {A} a.
Arguments Throw {A} e.

(** ** Cache (utils/cache.ts) *)

Module Cache.

Record CacheEntry (T : Type) := mkEntry {
  data : T;
  timestamp : Z;
  ttl : Z;
}.
Arguments mkEntry {T}.
Arguments data {T}.
Arguments timestamp {T}.
Arguments ttl {T}.

(** The object's fields: the [Map] and [defaultTTL]. *)
Record t (T : Type) := mk {
  cache : gmap string (CacheEntry T);
  defaultTTL : Z;
}.
Arguments mk {T}.
Arguments cache {T}.
Arguments defaultTTL {T}.

(** [new Cache(defaultTTL = 300000)]. *)
Definition new {T} (defaultTTL : option Z) : t T :=
  mk ∅ (default 300000%Z defaultTTL).

(** [ttl || this.defaultTTL]: [undefined] and [0] are both falsy. *)
Definition ttl_or_default (ttl : option Z) (defaultTTL : Z) : Z :=
  match ttl with
  | Some x => if (x =? 0)%Z then defaultTTL else x
  | None => defaultTTL
  end.

(** [set(key, data, ttl?)]; [now] is the reading of [Date.now()]. *)
Definition set {T} (now : Z) (key : string) (data : T) (ttl : option Z)
    (c : t T) : t T :=
  let entry := mkEntry data now (ttl_or_default ttl (defaultTTL c)) in
  mk (<[key := entry]> (cache c)) (defaultTTL c).

Definition isExpired {T} (now : Z) (entry : CacheEntry T) : bool :=
  (now - timestamp entry >? ttl entry)%Z.

(** [get(key)]: the value ([None] is [null]) and the cache afterwards. *)
Definition get {T} (now : Z) (key : string) (c : t T) : option T * t T :=
  match cache c !! key with
  | None => (None, c)
  | Some entry =>
      if isExpired now entry
      then (None, mk (delete key (cache c)) (defaultTTL c))
      else (Some (data entry), c)
  end.

Definition has {T} (now : Z) (key : string) (c : t T) : bool * t T :=
  let '(r, c') := get now key c in (bool_decide (is_Some r), c').

Definition delete {T} (key : string) (c : t T) : bool * t T :=
  (bool_decide (is_Some (cache c !! key)),
   mk (base.delete key (cache c)) (defaultTTL c)).

Definition clear {T} (c : t T) : t T := mk ∅ (defaultTTL c).

(** The sweep run every minute by [setInterval]. *)
Definition cleanup {T} (now : Z) (c : t T) : t T :=
  mk (filter (fun kv => negb (isExpired now (snd kv))) (cache c))
     (defaultTTL c).

Definition size {T} (c : t T) : nat := base.size (cache c).

End Cache.

(** ** Configuration (utils/config.ts) *)

Record Config := mkConfig {
  petstoreApiBase : string;
  openApiSpecUrl : string;
  cacheTTL : Z;
  maxRetries : Z;
  retryDelay : Z;
  requestTimeout : Z;
}.

(** ** The world *)

(** The argument of [client.request]. [validateStatus] is [None] when the
    caller leaves it out. *)
Record AxiosRequestConfig := mkRequest {
  rq_method : string;
  rq_url : string;
  rq_params : list (string * Value);
  rq_headers : list (string * Value);
  rq_data : Value;
  rq_validateStatus : option (Z -> bool);
}.

(** The effects a run performs, oldest first. *)
Inductive Event :=
| EvCacheGet (key : string)              (* [cache.get(key)] *)
| EvCacheSet (key : string)              (* [cache.set(key, ...)] *)
| EvRequest (rc : AxiosRequestConfig)    (* [httpClient.request(rc)] called *)
| EvAttempt (rc : AxiosRequestConfig)    (* [client.request(rc)]: on the wire *)
| EvDelay (ms : Z).                      (* [delay(ms)] waited *)

Record World := mkWorld {
  now : Z;                               (* what [Date.now()] reads *)
  cache : Cache.t ApiResponse;
  trace : list Event;
}.

(** What the network does with one attempt. *)
Inductive Outcome :=
| NoResponse (message : string)          (* network error or timeout *)
| Answer (r : AxiosResponse).

Record Reply := mkReply {
  outcome : Outcome;
  latency : nat;                         (* milliseconds the attempt took *)
}.

(** The remote side: the reply to an attempt, given how many attempts were
    made before it. *)
Definition Backend := nat -> AxiosRequestConfig -> Reply.

(** Computations over the world that return or throw. *)
Definition M (A : Type) : Type := World -> Result A * World.

#[global] Instance M_ret : MRet M := fun A a w => (Ok a, w).
#[global] Instance M_bind : MBind M := fun A B f m w =>
  match m w with
  | (Ok a, w') => f a w'
  | (Throw e, w') => (Throw e, w')
  end.

Definition throw {A} (e : Exn) : M A := fun w => (Throw e, w).

(** [try { body } catch (error) { handler }]. *)
Definition try_catch {A} (body : M A) (handler : Exn -> M A) : M A :=
  fun w =>
    match body w with
    | (Ok a, w') => (Ok a, w')
    | (Throw e, w') => handler e w'
    end.

Definition lift {A} (r : Result A) : M A := fun w => (r, w).

Definition emit (e : Event) : M unit :=
  fun w => (Ok tt, mkWorld (now w) (cache w) (trace w ++ [e])).

Definition is_attempt (e : Event) : bool :=
  match e with EvAttempt _ => true | _ => false end.

Definition is_request (e : Event) : bool :=
  match e with EvRequest _ => true | _ => false end.

Definition attempts (tr : list Event) : nat := length (filter is_attempt tr).
Definition requests (tr : list Event) : nat := length (filter is_request tr).

Definition delays (tr : list Event) : list Z :=
  omap (fun e => match e with EvDelay ms => Some ms | _ => None end) tr.

(** ** HttpClient (utils/http-client.ts) *)

Module HttpClient.
Section HttpClient.

Variable config : Config.
Variable backend : Backend.

(** axios: a status is accepted when [validateStatus] says so; without
    one in the request the library's default applies. *)
Definition validateStatus_default (s : Z) : bool :=
  ((200 <=? s) && (s <? 300))%Z.

(** [this.client.request(config)]: one attempt.  It resolves with the
    response when its status is accepted, and rejects otherwise, with
    [error.response] set when there was a response. *)
Definition client_request (rc : AxiosRequestConfig) : M AxiosResponse :=
  fun w =>
    let reply := backend (attempts (trace w)) rc in
    let w' := mkWorld (now w + Z.of_nat (latency reply)) (cache w)
                      (trace w ++ [EvAttempt rc]) in
    match outcome reply with
    | NoResponse msg => (Throw (AxiosError msg None), w')
    | Answer r =>
        if default validateStatus_default (rq_validateStatus rc) (status r)
        then (Ok r, w')
        else (Throw (AxiosError
                       ("Request failed with status code "
                          +:+ pretty (status r)) (Some r)), w')
    end.

(** [delay(ms)]: the timer fires after [ms] milliseconds. *)
Definition delay (ms : Z) : M unit :=
  fun w => (Ok tt, mkWorld (now w + Z.max 0 ms) (cache w)
                           (trace w ++ [EvDelay ms])).

(** [error.response]. *)
Definition exn_response (error : Exn) : option AxiosResponse :=
  match error with
  | AxiosError _ r => r
  | _ => None
  end.

Definition shouldRetry (error : Exn) (attempt : Z) : bool :=
  if (attempt >=? maxRetries config)%Z then false
  else match exn_response error with
       | None => true                                  (* network error *)
       | Some r => ((status r >=? 500) && (status r <? 600))%Z
       end.

Definition throw_lastError {A} (lastError : option Exn) : M A :=
  throw (default ThrownUndefined lastError).

(** The [for] loop of [request], from iteration [attempt] on; [fuel]
    bounds the iterations left. *)
Fixpoint request_loop (fuel : nat) (attempt : Z) (lastError : option Exn)
    (rc : AxiosRequestConfig) : M AxiosResponse :=
  match fuel with
  | O => throw_lastError lastError
  | S fuel' =>
      if (attempt <=? maxRetries config)%Z then
        try_catch (client_request rc) (fun error =>
          if negb (shouldRetry error attempt) then throw error
          else
            let delay_ms := (retryDelay config * 2 ^ attempt)%Z in
            _ ← delay delay_ms;
            request_loop fuel' (attempt + 1)%Z (Some error) rc)
      else throw_lastError lastError
  end.

Definition request (rc : AxiosRequestConfig) : M AxiosResponse :=
  _ ← emit (EvRequest rc);
  request_loop (Z.to_nat (maxRetries config + 1)) 0%Z None rc.

Definition get (url : string) : M AxiosResponse :=
  request (mkRequest "GET" url [] [] VUndefined None).

End HttpClient.
End HttpClient.

(** ** SchemaValidator (utils/schema-validator.ts) *)

Module SchemaValidator.

(** A [pattern]: its source text and the strings the regular expression
    it denotes matches. *)
Record Pattern := mkPattern {
  source : string;
  matches : string -> bool;
}.

(** [new RegExp(source).test(value)]; the empty source is the empty
    regular expression, which matches every string. *)
Definition RegExp_test (p : Pattern) (value : string) : bool :=
  String.eqb (source p) "" || matches p value.

(** The scalar fields of a schema object. *)
Record Facets := mkFacets {
  type : option string;
  nullable : option bool;
  required : option (list string);
  enum : option (list Value);
  pattern : option Pattern;
  minLength : option Z;
  maxLength : option Z;
  minimum : option Z;
  maximum : option Z;
  exclusiveMinimum : option bool;
  exclusiveMaximum : option bool;
  minItems : option Z;
  maxItems : option Z;
}.

(** [SchemaObject | ReferenceObject]. *)
Inductive Schema :=
| ReferenceObject (ref : string)
| SchemaObject (f : Facets)
    (items : option Schema)
    (properties : option (list (string * Schema)))
    (additionalProperties : option (bool + Schema)).

Definition ok : Result unit := Ok tt.

(** Sequencing of statements that may throw. *)
Definition andThen (r : Result unit) (k : Result unit) : Result unit :=
  match r with
  | Ok _ => k
  | Throw e => Throw e
  end.
Notation "a ;;; b" := (andThen a b) (at level 100, b at level 200, right associativity).

Definition quoted (s : string) : string := dquote +:+ s +:+ dquote.

(** [xs.join(sep)] on values: [null] and [undefined] print empty. *)
Definition join_values (sep : string) (xs : list Value) : string :=
  join sep (map (fun x => match x with
                          | VUndefined | VNull => ""
                          | _ => String_ x
                          end) xs).

(** [enum.includes(value)] for a string [value]. *)
Definition includes_string (xs : list Value) (value : string) : bool :=
  existsb (fun x => match x with
                    | VStr s => String.eqb s value
                    | _ => false
                    end) xs.

(** [value.length]. *)
Definition str_length (s : string) : Z := Z.of_nat (String.length s).

Definition validateString (value : string) (f : Facets)
    (paramName : string) : Result unit :=
  (* Check enum values *)
  (match enum f with
   | Some e =>
       if negb (includes_string e value)
       then Throw (Error ("Parameter " +:+ quoted paramName
                            +:+ " must be one of: " +:+ join_values ", " e))
       else ok
   | None => ok
   end) ;;;
  (* Check pattern *)
  (match pattern f with
   | Some p =>
       if negb (String.eqb (source p) "") then
         if negb (RegExp_test p value)
         then Throw (Error ("Parameter " +:+ quoted paramName
                              +:+ " does not match pattern: " +:+ source p))
         else ok
       else ok
   | None => ok
   end) ;;;
  (* Check length constraints *)
  (match minLength f with
   | Some n =>
       if (str_length value <? n)%Z
       then Throw (Error ("Parameter " +:+ quoted paramName
                            +:+ " must be at least " +:+ pretty n
                            +:+ " characters long"))
       else ok
   | None => ok
   end) ;;;
  (match maxLength f with
   | Some n =>
       if (str_length value >? n)%Z
       then Throw (Error ("Parameter " +:+ quoted paramName
                            +:+ " must be at most " +:+ pretty n
                            +:+ " characters long"))
       else ok
   | None => ok
   end).

(** [Number.isInteger] on the modelled numbers. *)
Definition Number_isInteger (value : Z) : bool := true.

Definition is_true (b : option bool) : bool :=
  match b with Some true => true | _ => false end.

Definition validateNumber (value : Z) (f : Facets) (paramName : string)
  : Result unit :=
  (match minimum f with
   | Some m =>
       let isExclusive := is_true (exclusiveMinimum f) in
       if (if isExclusive then value <=? m else value <? m)%Z
       then Throw (Error ("Parameter " +:+ quoted paramName +:+ " must be "
                            +:+ (if isExclusive then "greater than"
                                 else "at least")
                            +:+ " " +:+ pretty m))
       else ok
   | None => ok
   end) ;;;
  (match maximum f with
   | Some m =>
       let isExclusive := is_true (exclusiveMaximum f) in
       if (if isExclusive then value >=? m else value >? m)%Z
       then Throw (Error ("Parameter " +:+ quoted paramName +:+ " must be "
                            +:+ (if isExclusive then "less than"
                                 else "at most")
                            +:+ " " +:+ pretty m))
       else ok
   | None => ok
   end) ;;;
  (if match type f with Some "integer" => true | _ => false end
      && negb (Number_isInteger value)
   then Throw (Error ("Parameter " +:+ quoted paramName
                        +:+ " must be an integer"))
   else ok).

(** [value.forEach((item, index) => validate(item, items, ...))]. *)
Fixpoint forEach_item (validate_item : Value -> string -> Result unit)
    (paramName : string) (index : nat) (value : list Value) : Result unit :=
  match value with
  | [] => ok
  | item :: rest =>
      validate_item item (paramName +:+ "[" +:+ pretty index +:+ "]") ;;;
      forEach_item validate_item paramName (S index) rest
  end.

Definition validateArray (validate_item : option (Value -> string -> Result unit))
    (value : list Value) (f : Facets) (paramName : string) : Result unit :=
  (match minItems f with
   | Some n =>
       if (Z.of_nat (length value) <? n)%Z
       then Throw (Error ("Parameter " +:+ quoted paramName
                            +:+ " must have at least " +:+ pretty n
                            +:+ " items"))
       else ok
   | None => ok
   end) ;;;
  (match maxItems f with
   | Some n =>
       if (Z.of_nat (length value) >? n)%Z
       then Throw (Error ("Parameter " +:+ quoted paramName
                            +:+ " must have at most " +:+ pretty n
                            +:+ " items"))
       else ok
   | None => ok
   end) ;;;
  (match validate_item with
   | Some v => forEach_item v paramName 0 value
   | None => ok
   end).

(** [k in value] and [Object.keys(value)] on a plain object. *)
Definition has_key (value : list (string * Value)) (k : string) : bool :=
  bool_decide (is_Some (obj_get value k)).

Definition keys {A} (o : list (string * A)) : list string := map fst o.

Definition includes (xs : list string) (k : string) : bool :=
  existsb (String.eqb k) xs.

(** The loop over [schema.required]. *)
Fixpoint check_required (required : list string)
    (value : list (string * Value)) (paramName : string) : Result unit :=
  match required with
  | [] => ok
  | requiredProp :: rest =>
      if negb (has_key value requiredProp)
      then Throw (Error ("Property " +:+ quoted requiredProp
                           +:+ " is required in " +:+ quoted paramName))
      else check_required rest value paramName
  end.

(** The loop over [Object.entries(schema.properties)], each property
    with the validation of its schema. *)
Fixpoint check_properties
    (props : list (string * (Value -> string -> Result unit)))
    (value : list (string * Value)) (paramName : string) : Result unit :=
  match props with
  | [] => ok
  | (propName, validate_prop) :: rest =>
      (if has_key value propName
       then validate_prop (default VUndefined (obj_get value propName))
                          (paramName +:+ "." +:+ propName)
       else ok) ;;;
      check_properties rest value paramName
  end.

Definition is_false {A} (ap : option (bool + A)) : bool :=
  match ap with Some (inl false) => true | _ => false end.

Definition validateObject
    (props : option (list (string * (Value -> string -> Result unit))))
    (additionalProperties_false : bool)
    (value : list (string * Value)) (f : Facets) (paramName : string)
  : Result unit :=
  (* Check required properties *)
  (match required f with
   | Some r => check_required r value paramName
   | None => ok
   end) ;;;
  (* Validate properties *)
  (match props with
   | Some ps => check_properties ps value paramName
   | None => ok
   end) ;;;
  (* Check additional properties *)
  (if additionalProperties_false then
     let definedProps := keys (default [] props) in
     let extraProps :=
       filter (fun key => negb (includes definedProps key)) (keys value) in
     if (0 <? length extraProps)%nat
     then Throw (Error ("Unexpected properties in " +:+ quoted paramName
                          +:+ ": " +:+ join ", " extraProps))
     else ok
   else ok).

Fixpoint validate (schema : Schema) (value : Value) (paramName : string)
  : Result unit :=
  match schema with
  | ReferenceObject _ => ok        (* For now, skip reference validation *)
  | SchemaObject f items properties additionalProperties =>
      match value with
      | VUndefined | VNull =>
          (* Check required *)
          if is_true (nullable f) || negb (bool_decide (is_Some (required f)))
          then ok
          else Throw (Error ("Parameter " +:+ quoted paramName
                               +:+ " is required"))
      | _ =>
          (* Validate type *)
          match type f with
          | Some "string" =>
              match value with
              | VStr s => validateString s f paramName
              | _ => Throw (Error ("Parameter " +:+ quoted paramName
                                     +:+ " must be a string"))
              end
          | Some "number" | Some "integer" =>
              match value with
              | VNum n => validateNumber n f paramName
              | _ => Throw (Error ("Parameter " +:+ quoted paramName
                                     +:+ " must be a number"))
              end
          | Some "boolean" =>
              match value with
              | VBool _ => ok
              | _ => Throw (Error ("Parameter " +:+ quoted paramName
                                     +:+ " must be a boolean"))
              end
          | Some "array" =>
              match value with
              | VArr xs =>
                  validateArray
                    (match items with
                     | Some s => Some (validate s)
                     | None => None
                     end) xs f paramName
              | _ => Throw (Error ("Parameter " +:+ quoted paramName
                                     +:+ " must be an array"))
              end
          | Some "object" =>
              match value with
              | VObj fields =>
                  validateObject
                    (match properties with
                     | Some ps =>
                         Some (map (fun kv => (fst kv, validate (snd kv))) ps)
                     | None => None
                     end)
                    (is_false additionalProperties) fields f paramName
              | _ => Throw (Error ("Parameter " +:+ quoted paramName
                                     +:+ " must be an object"))
              end
          | _ => ok
          end
      end
  end.

(** [schema.nullable === true] and the truthiness of [schema.required],
    read off a schema; a reference object has neither field. *)
Definition nullable_true (schema : Schema) : bool :=
  match schema with
  | SchemaObject f _ _ _ => is_true (nullable f)
  | ReferenceObject _ => false
  end.

Definition contextually_required (schema : Schema) : bool :=
  match schema with
  | SchemaObject f _ _ _ => bool_decide (is_Some (required f))
  | ReferenceObject _ => false
  end.

End SchemaValidator.

(** ** Tools (types/index.ts) *)

Module ToolParameter.
Record t := mk {
  name : string;
  description : option string;
  required : bool;
  type : string;
  location : string;      (* 'path' | 'query' | 'header' | 'body' *)
  schema : option SchemaValidator.Schema;
}.
End ToolParameter.

Module ApiTool.
Record t := mk {
  name : string;
  description : string;
  method : string;
  path : string;
  parameters : list ToolParameter.t;
}.
End ApiTool.

(** ** OpenApiLoader (tools/openapi-loader.ts) *)

Module OpenAPIV3.

Record ParameterObject := mkParameter {
  name : string;
  description : option string;
  required : option bool;
  in_ : string;
  schema : option SchemaValidator.Schema;
}.

Inductive ParameterOrRef :=
| Param (p : ParameterObject)
| ParamRef (ref : string).

Record MediaTypeObject := mkMediaType {
  media_schema : option SchemaValidator.Schema;
}.

Record RequestBodyObject := mkRequestBody {
  body_description : option string;
  content : list (string * MediaTypeObject);
  body_required : option bool;
}.

Inductive RequestBodyOrRef :=
| RequestBody (b : RequestBodyObject)
| RequestBodyRef (ref : string).

Record OperationObject := mkOperation {
  operationId : option string;
  summary : option string;
  op_description : option string;
  parameters : option (list ParameterOrRef);
  requestBody : option RequestBodyOrRef;
}.

Record PathItemObject := mkPathItem {
  get : option OperationObject;
  post : option OperationObject;
  put : option OperationObject;
  delete : option OperationObject;
  patch : option OperationObject;
}.

(** The document: its paths in the order of [Object.entries], and the
    parameters declared under [components.parameters]. *)
Record Document := mkDocument {
  paths : option (list (string * option PathItemObject));
  components_parameters : list (string * ParameterObject);
}.

End OpenAPIV3.

Module OpenApiLoader.
Import OpenAPIV3.

(** The object's fields that the catalog depends on. *)
Record t := mk {
  openApiSpec : option Document;
  apiTools : gmap string ApiTool.t;
}.

(** [a || b] on strings that may be absent. *)
Definition str_or (a : option string) (b : string) : string :=
  match a with
  | Some s => if String.eqb s "" then b else s
  | None => b
  end.

(** [s.split(sep)] for a one-character separator. *)
Fixpoint split (sep : ascii) (s : string) : list string :=
  match s with
  | EmptyString => [""]
  | String c s' =>
      if Ascii.eqb c sep then "" :: split sep s'
      else match split sep s' with
           | [] => [String c ""]
           | x :: xs => String c x :: xs
           end
  end.

(** [resolveReference(ref)], as far as it yields a parameter object:
    the walk from the document root along the parts of the pointer.  In
    the typed document the parameter objects a pointer can reach are the
    entries of [components.parameters]. *)
Definition resolveReference (spec : Document) (ref : string)
  : option ParameterObject :=
  if negb (String.prefix "#/" ref) then None
  else match split "/" (string_drop 2 ref) with
       | ["components"; "parameters"; key] =>
           obj_get (components_parameters spec) key
       | _ => None
       end.

(** [path.replace(/[^a-zA-Z0-9]/g, '_')]. *)
Fixpoint sanitize (path : string) : string :=
  match path with
  | EmptyString => EmptyString
  | String c s' => String (if is_alnum c then c else "_"%char) (sanitize s')
  end.

Definition schema_type (s : option SchemaValidator.Schema) : option string :=
  match s with
  | Some (SchemaValidator.SchemaObject f _ _ _) => SchemaValidator.type f
  | _ => None
  end.

(** The body of [operation.parameters.forEach]. *)
Definition push_parameter (spec : Document)
    (parameters : list ToolParameter.t) (param : ParameterOrRef)
  : list ToolParameter.t :=
  let resolved :=
    match param with
    | ParamRef ref => resolveReference spec ref
    | Param p => Some p
    end in
  match resolved with
  | None => parameters
  | Some p =>
      (parameters ++
         [ToolParameter.mk (name p) (description p)
            (default false (required p))
            (str_or (schema_type (schema p)) "string")
            (in_ p)
            (schema p)])%list
  end.

Definition createToolFromOperation (spec : Document) (path method : string)
    (operation : OperationObject) : option ApiTool.t :=
  let operationId :=
    str_or (operationId operation) (method +:+ "_" +:+ sanitize path) in
  let description :=
    str_or (summary operation)
      (str_or (op_description operation)
         (toUpperCase method +:+ " " +:+ path)) in
  (* Process parameters *)
  let parameters :=
    match parameters operation with
    | Some ps => fold_left (push_parameter spec) ps []
    | None => []
    end in
  (* Process request body *)
  let parameters :=
    match requestBody operation with
    | Some (RequestBody rb) =>
        match obj_get (content rb) "application/json" with
        | Some (mkMediaType (Some schema)) =>
            (parameters ++
               [ToolParameter.mk "body"
                  (Some (str_or (body_description rb) "Request body"))
                  (default false (body_required rb))
                  "object" "body" (Some schema)])%list
        | _ => parameters
        end
    | _ => parameters
    end in
  Some (ApiTool.mk operationId description method path parameters).

Definition methods : list string := ["get"; "post"; "put"; "delete"; "patch"].

(** [(pathItem as any)[method]]. *)
Definition operation_of (pathItem : PathItemObject) (method : string)
  : option OperationObject :=
  if String.eqb method "get" then get pathItem
  else if String.eqb method "post" then post pathItem
  else if String.eqb method "put" then put pathItem
  else if String.eqb method "delete" then delete pathItem
  else if String.eqb method "patch" then patch pathItem
  else None.

(** The body of [methods.forEach]. *)
Definition add_method (spec : Document) (path : string)
    (pathItem : PathItemObject) (tools : gmap string ApiTool.t)
    (method : string) : gmap string ApiTool.t :=
  match operation_of pathItem method with
  | None => tools
  | Some operation =>
      match createToolFromOperation spec path method operation with
      | Some tool => <[ApiTool.name tool := tool]> tools
      | None => tools
      end
  end.

(** The body of [Object.entries(paths).forEach]. *)
Definition add_path (spec : Document) (tools : gmap string ApiTool.t)
    (entry : string * option PathItemObject) : gmap string ApiTool.t :=
  match entry with
  | (_, None) => tools
  | (path, Some pathItem) =>
      fold_left (add_method spec path pathItem) methods tools
  end.

Definition generateToolsFromSpec (l : t) : t :=
  match openApiSpec l with
  | Some spec =>
      match paths spec with
      | Some ps => mk (openApiSpec l) (fold_left (add_path spec) ps ∅)
      | None => l
      end
  | None => l
  end.

Definition getTool (l : t) (name : string) : option ApiTool.t :=
  apiTools l !! name.

End OpenApiLoader.

(** ** ToolExecutor (tools/tool-executor.ts) *)

Module ToolExecutor.
Section ToolExecutor.

Variable config : Config.
Variable backend : Backend.

(** [args[name]] on the parsed arguments of a call, a plain object read
    through its own properties; a name with no entry reads [undefined]. *)
Definition arg (args : gmap string Value) (name : string) : Value :=
  default VUndefined (args !! name).

Definition is_undefined (v : Value) : bool :=
  match v with VUndefined => true | _ => false end.

Record BuiltRequest := mkBuilt {
  url : string;
  params : list (string * Value);
  req_headers : list (string * Value);
  req_data : Value;
}.

Definition missingParams (tool : ApiTool.t) (args : gmap string Value)
  : list string :=
  map ToolParameter.name
    (filter (fun p => ToolParameter.required p
                      && is_undefined (arg args (ToolParameter.name p)))
            (ApiTool.parameters tool)).

(** The body of [tool.parameters.forEach], on the four variables it
    assigns. *)
Definition process_parameter (args : gmap string Value)
    (acc : BuiltRequest) (param : ToolParameter.t) : BuiltRequest :=
  let value := arg args (ToolParameter.name param) in
  if is_undefined value then acc
  else
    let location := ToolParameter.location param in
    if String.eqb location "path" then
      mkBuilt (replace ("{" +:+ ToolParameter.name param +:+ "}")
                       (encodeURIComponent (String_ value)) (url acc))
              (params acc) (req_headers acc) (req_data acc)
    else if String.eqb location "query" then
      mkBuilt (url acc) (obj_set (params acc) (ToolParameter.name param) value)
              (req_headers acc) (req_data acc)
    else if String.eqb location "header" then
      mkBuilt (url acc) (params acc)
              (obj_set (req_headers acc) (ToolParameter.name param) value)
              (req_data acc)
    else if String.eqb location "body" then
      mkBuilt (url acc) (params acc) (req_headers acc) value
    else acc.

Definition buildRequest (tool : ApiTool.t) (args : gmap string Value)
  : Result BuiltRequest :=
  let url0 := petstoreApiBase config +:+ "/api/v3" +:+ ApiTool.path tool in
  let headers0 := [("Accept", VStr "application/json");
                   ("Content-Type", VStr "application/json")] in
  (* Validate required parameters *)
  let missing := missingParams tool args in
  if (0 <? length missing)%nat
  then Throw (Error ("Missing required parameters: " +:+ join ", " missing))
  else
    (* Process parameters *)
    let built := fold_left (process_parameter args) (ApiTool.parameters tool)
                           (mkBuilt url0 [] headers0 VUndefined) in
    (* Validate all path parameters were replaced *)
    match match_tokens (url built) with
    | [] => Ok built
    | unreplacedParams =>
        Throw (Error ("Unreplaced path parameters: "
                        +:+ join ", " unreplacedParams))
    end.

Definition relevant (p : ToolParameter.t) : bool :=
  negb (String.eqb (ToolParameter.location p) "header")
  || String.eqb (toLowerCase (ToolParameter.name p)) "authorization".

Definition relevantArgs (tool : ApiTool.t) (args : gmap string Value)
  : list (string * Value) :=
  fold_left (fun acc param =>
               let value := arg args (ToolParameter.name param) in
               if is_undefined value then acc
               else obj_set acc (ToolParameter.name param) value)
            (filter relevant (ApiTool.parameters tool)) [].

Definition buildCacheKey (tool : ApiTool.t) (args : gmap string Value)
  : option string :=
  (* Only cache GET requests *)
  if negb (String.eqb (ApiTool.method tool) "get") then None
  else Some (ApiTool.name tool +:+ ":"
               +:+ JSON_stringify (VObj (relevantArgs tool args))).

(** [cacheKey] used as a condition: [null] and the empty string are
    falsy. *)
Definition truthy_key (cacheKey : option string) : option string :=
  match cacheKey with
  | Some k => if String.eqb k "" then None else Some k
  | None => None
  end.

Definition cache_get (key : string) : M (option ApiResponse) :=
  fun w =>
    let '(r, c) := Cache.get (now w) key (cache w) in
    (Ok r, mkWorld (now w) c (trace w ++ [EvCacheGet key])).

Definition cache_set (key : string) (data : ApiResponse) : M unit :=
  fun w =>
    (Ok tt, mkWorld (now w) (Cache.set (now w) key data None (cache w))
                    (trace w ++ [EvCacheSet key])).

Definition is_get (tool : ApiTool.t) : bool :=
  String.eqb (ApiTool.method tool) "get".

(** The [try] block of [execute]. *)
Definition dispatch (tool : ApiTool.t) (args : gmap string Value)
    (cacheKey : option string) : M ApiResponse :=
  (* Build request *)
  built ← lift (buildRequest tool args);
  (* Execute request *)
  response ← HttpClient.request config backend
    (mkRequest (ApiTool.method tool) (url built) (params built)
               (req_headers built) (req_data built) (Some (fun _ => true)));
  (* Format response *)
  let apiResponse :=
    mkApiResponse (status response) (statusText response)
                  (headers response) (data response) in
  (* Cache successful GET requests *)
  _ ← (match truthy_key cacheKey with
       | Some key =>
           if is_get tool && (status response >=? 200)%Z
              && (status response <? 300)%Z
           then cache_set key apiResponse
           else mret tt
       | None => mret tt
       end);
  mret apiResponse.

(** The [catch] block of [execute]. *)
Definition rethrow (tool : ApiTool.t) (error : Exn) : M ApiResponse :=
  match exn_message error with
  | Some message =>
      throw (Error ("Failed to execute " +:+ ApiTool.name tool +:+ ": "
                      +:+ message))
  | None =>
      throw (TypeError
               "Cannot read properties of undefined (reading 'message')")
  end.

Definition execute (tool : ApiTool.t) (args : gmap string Value)
  : M ApiResponse :=
  (* Build cache key for GET requests *)
  let cacheKey := buildCacheKey tool args in
  (* Check cache for GET requests *)
  cached ← (match truthy_key cacheKey with
            | Some key => if is_get tool then cache_get key else mret None
            | None => mret None
            end);
  match cached with
  | Some c => mret c
  | None => try_catch (dispatch tool args cacheKey) (rethrow tool)
  end.

End ToolExecutor.
End ToolExecutor.

(** ** Vocabulary of the statements *)

(** [k] attempts that were each retried, the first of them being attempt
    number [from]: every one is put on the wire and followed by its delay. *)
Definition retried (config : Config) (rc : AxiosRequestConfig) (from : Z)
    (k : nat) : list Event :=
  flat_map (fun i => [EvAttempt rc;
                      EvDelay (retryDelay config * 2 ^ (from + Z.of_nat i))%Z])
           (seq 0 k).

(** The remote side answers every attempt, always with status [s]. *)
Definition always_status (backend : Backend) (s : Z) : Prop :=
  forall n rc, exists r l, backend n rc = mkReply (Answer r) l /\ status r = s.

(** What the run of a computation adds to the trace. *)
Definition added (tr : list Event) (w w' : World) : Prop :=
  trace w' = (trace w ++ tr)%list.

(** Time passing between two calls. *)
Definition elapse (ms : Z) (w : World) : World :=
  mkWorld (now w + ms) (cache w) (trace w).

(** The cache key of a GET call. *)
Definition fingerprint (tool : ApiTool.t) (args : gmap string Value) : string :=
  ApiTool.name tool +:+ ":"
    +:+ JSON_stringify (VObj (ToolExecutor.relevantArgs tool args)).

(** What the cache lookup of [execute] finds: nothing for a tool that is
    not a GET, else what [Cache.get] returns for the fingerprint. *)
Definition cached_response (w : World) (tool : ApiTool.t)
    (args : gmap string Value) : option ApiResponse :=
  if ToolExecutor.is_get tool
  then fst (Cache.get (now w) (fingerprint tool args) (cache w))
  else None.

(** The request [execute] hands to the client. *)
Definition request_of (tool : ApiTool.t) (built : ToolExecutor.BuiltRequest)
  : AxiosRequestConfig :=
  mkRequest (ApiTool.method tool) (ToolExecutor.url built)
            (ToolExecutor.params built) (ToolExecutor.req_headers built)
            (ToolExecutor.req_data built) (Some (fun _ => true)).

(** The world after the cache lookup of a GET call. *)
Definition looked_up (tool : ApiTool.t) (args : gmap string Value)
    (w : World) : World :=
  mkWorld (now w)
          (snd (Cache.get (now w) (fingerprint tool args) (cache w)))
          (trace w ++ [EvCacheGet (fingerprint tool args)]).

(** What the [catch] block of [execute] throws. *)
Definition rethrown (tool : ApiTool.t) (error : Exn) : Exn :=
  match exn_message error with
  | Some message =>
      Error ("Failed to execute " +:+ ApiTool.name tool +:+ ": " +:+ message)
  | None =>
      TypeError "Cannot read properties of undefined (reading 'message')"
  end.

(** The [ApiResponse] made of a response. *)
Definition to_api (response : AxiosResponse) : ApiResponse :=
  mkApiResponse (status response) (statusText response)
                (headers response) (data response).

(** The condition under which [execute] stores a response. *)
Definition cacheable (tool : ApiTool.t) (response : AxiosResponse) : bool :=
  ToolExecutor.is_get tool
  && (status response >=? 200)%Z && (status response <? 300)%Z.

(** No opening brace in a string. *)
Fixpoint no_brace (s : string) : bool :=
  match s with
  | EmptyString => true
  | String c s' => negb (Ascii.eqb c "{") && no_brace s'
  end.

(** ** Sample data *)

Module Samples.
Import SchemaValidator.

Definition no_facets : Facets :=
  mkFacets None None None None None None None None None None None None None.

Definition with_type (t : string) (f : Facets) : Facets :=
  mkFacets (Some t) (nullable f) (required f) (enum f) (pattern f)
           (minLength f) (maxLength f) (minimum f) (maximum f)
           (exclusiveMinimum f) (exclusiveMaximum f) (minItems f)
           (maxItems f).

(** [/^a$/], which matches the string [a] and no other. *)
Definition only_a : Pattern := mkPattern "^a$" (String.eqb "a").

Definition facets_pattern : Facets :=
  mkFacets None None None None (Some only_a)
           None None None None None None None None.

Definition facets_enum_pattern : Facets :=
  mkFacets (Some "string") None None (Some [VStr "a"]) (Some only_a)
           None None None None None None None None.

(** [{ pattern: "^a$" }]: a pattern and no [type]. *)
Definition schema_pattern_only : Schema :=
  SchemaObject facets_pattern None None None.

(** [{ type: "string", enum: ["a"], pattern: "^a$" }]. *)
Definition schema_enum_pattern : Schema :=
  SchemaObject facets_enum_pattern None None None.

(** [{ type: "string", pattern: "^a$" }]. *)
Definition schema_string_pattern : Schema :=
  SchemaObject (with_type "string" facets_pattern) None None None.

(** [{ type: "object", required: ["id"] }]. *)
Definition facets_required : Facets :=
  mkFacets (Some "object") None (Some ["id"]) None None
           None None None None None None None None.

Definition schema_required : Schema :=
  SchemaObject facets_required None None None.

(** [{ type: "object", properties: { id: { type: "integer" } },
       additionalProperties: false }]. *)
Definition schema_closed : Schema :=
  SchemaObject (with_type "object" no_facets) None
    (Some [("id", SchemaObject (with_type "integer" no_facets)
                    None None None)])
    (Some (inl false)).

(** The documented defaults of the configuration. *)
Definition defaults : Config :=
  mkConfig "https://petstore3.swagger.io"
           "https://petstore3.swagger.io/api/v3/openapi.json"
           300000 3 1000 30000.

Definition answer (s : Z) (text : string) (body : Value) : Backend :=
  fun _ _ => mkReply (Answer (mkResponse s text [] body)) 5.

Definition always_200 : Backend := answer 200 "OK" (VObj [("id", VNum 7)]).
Definition always_404 : Backend := answer 404 "Not Found" VNull.
Definition always_503 : Backend := answer 503 "Service Unavailable" VNull.
Definition unreachable : Backend :=
  fun _ _ => mkReply (NoResponse "Network Error") 5.

(** A fresh process at time [0]: an empty cache with the default TTL. *)
Definition start : World := mkWorld 0 (Cache.new (Some 300000%Z)) [].

(** [GET /pet/{id}], with a required path parameter and a required
    [api_key] header. *)
Definition getPetById : ApiTool.t :=
  ApiTool.mk "getPetById" "Find pet by ID" "get" "/pet/{id}"
    [ToolParameter.mk "id" None true "integer" "path" None;
     ToolParameter.mk "api_key" None true "string" "header" None].

Definition args_id_key : gmap string Value :=
  <["id" := VNum 7]> (<["api_key" := VStr "secret"]> ∅).

Definition args_id : gmap string Value := <["id" := VNum 7]> ∅.

(** The request [execute] hands to the client for [getPetById]. *)
Definition getPet_request : AxiosRequestConfig :=
  mkRequest "get" "https://petstore3.swagger.io/api/v3/pet/7" []
    [("Accept", VStr "application/json");
     ("Content-Type", VStr "application/json");
     ("api_key", VStr "secret")]
    VUndefined (Some (fun _ => true)).

(** The same arguments with an entry the tool does not declare. *)
Definition args_id_key_debug : gmap string Value :=
  <["debug" := VBool true]> args_id_key.

Definition pet_7 : ApiResponse :=
  mkApiResponse 200 "OK" [] (VObj [("id", VNum 7)]).

(** The world after a first, complete call of [getPetById]. *)
Definition after_first_call : World :=
  snd (ToolExecutor.execute defaults always_200 getPetById args_id_key start).

(** A document whose only operation is [GET /pet/{id}]. *)
Definition pet_operation : OpenAPIV3.OperationObject :=
  OpenAPIV3.mkOperation (Some "getPetById") (Some "Find pet by ID") None
    (Some [OpenAPIV3.Param
             (OpenAPIV3.mkParameter "id" (Some "ID of pet to return")
                (Some true) "path"
                (Some (SchemaObject (with_type "integer" no_facets)
                         None None None)))])
    None.

Definition pet_document : OpenAPIV3.Document :=
  OpenAPIV3.mkDocument
    (Some [("/pet/{id}",
            Some (OpenAPIV3.mkPathItem (Some pet_operation)
                    None None None None))])
    [].

Definition args_7 : gmap string Value := {[ "id" := VNum 7 ]}.

End Samples.

(** ** Further vocabulary *)

(** A reply that the client retries while attempts are left: no response,
    or a response that the request does not accept with a status in
    [[500,600)]. *)
Definition transient (rc : AxiosRequestConfig) (reply : Reply) : bool :=
  match outcome reply with
  | NoResponse _ => true
  | Answer r =>
      negb (default HttpClient.validateStatus_default (rq_validateStatus rc)
              (status r))
      && (500 <=? status r)%Z && (status r <? 600)%Z
  end.

(** The error axios rejects an attempt with. *)
Definition rejection (reply : Reply) : Exn :=
  match outcome reply with
  | NoResponse msg => AxiosError msg None
  | Answer r =>
      AxiosError ("Request failed with status code " +:+ pretty (status r))
                 (Some r)
  end.

(** The time waited in the delays of a trace. *)
Definition total_delay (tr : list Event) : Z := foldr Z.add 0%Z (delays tr).





Definition at_least (bound : option Z) (n : Z) : bool :=
  match bound with Some m => (m <=? n)%Z | None => true end.

Definition at_most (bound : option Z) (n : Z) : bool :=
  match bound with Some m => (n <=? m)%Z | None => true end.

(** The names under which the items and the properties are validated. *)
Definition item_name (paramName : string) (index : nat) : string :=
  paramName +:+ "[" +:+ pretty index +:+ "]".


(** A result that, when it is an error, is an [Error] whose message
    holds the parameter name. *)
Definition names_parameter (r : Result unit) (paramName : string) : Prop :=
  match r with
  | Ok _ => True
  | Throw (Error message) => str_includes paramName message = true
  | Throw _ => False
  end.

(** ** The tool listing (main.ts, handler of [ListToolsRequestSchema]) *)

Module ListTools.

(** [inputSchema.properties]: one entry per parameter name, with its type
    and description. *)
Definition properties (tool : ApiTool.t)
  : list (string * (string * option string)) :=
  fold_left (fun acc param =>
               obj_set acc (ToolParameter.name param)
                       (ToolParameter.type param,
                        ToolParameter.description param))
            (ApiTool.parameters tool) [].

(** [inputSchema.required]. *)
Definition required (tool : ApiTool.t) : list string :=
  map ToolParameter.name
      (filter (fun p => ToolParameter.required p) (ApiTool.parameters tool)).

End ListTools.

(** The tools that the operations of a path entry give, in the order the
    methods are visited, and those of a whole document. *)
Definition tools_of_path (spec : OpenAPIV3.Document)
    (entry : string * option OpenAPIV3.PathItemObject) : list ApiTool.t :=
  match entry with
  | (path, Some pathItem) =>
      omap (fun method =>
              match OpenApiLoader.operation_of pathItem method with
              | Some operation =>
                  OpenApiLoader.createToolFromOperation spec path method
                                                        operation
              | None => None
              end) OpenApiLoader.methods
  | (_, None) => []
  end.

Definition derived_tools (spec : OpenAPIV3.Document)
    (ps : list (string * option OpenAPIV3.PathItemObject)) : list ApiTool.t :=
  flat_map (tools_of_path spec) ps.





Definition is_cache_event (e : Event) : bool :=
  match e with EvCacheGet _ | EvCacheSet _ => true | _ => false end.


(** ** Further sample data *)

Module Cases.

(** The remote side cannot be reached for the first two attempts, then
    answers. *)
Definition flaky : Backend :=
  fun n _ =>
    if (n <? 2)%nat then mkReply (NoResponse "Network Error") 5
    else mkReply (Answer (mkResponse 200 "OK" [] (VObj [("id", VNum 7)]))) 5.

(** [MAX_RETRIES=-1]. *)
Definition no_attempts : Config :=
  mkConfig "https://petstore3.swagger.io"
           "https://petstore3.swagger.io/api/v3/openapi.json"
           300000 (-1) 1000 30000.


(** [{ type: "array", items: { type: "integer" } }]. *)
Definition schema_integers : SchemaValidator.Schema :=
  SchemaValidator.SchemaObject (Samples.with_type "array" Samples.no_facets)
    (Some (SchemaValidator.SchemaObject
             (Samples.with_type "integer" Samples.no_facets) None None None))
    None None.

Definition spec_request : AxiosRequestConfig :=
  mkRequest "GET" "https://petstore3.swagger.io/api/v3/openapi.json"
            [] [] VUndefined None.

End Cases.

(** * Properties *)

(** ** Cache *)

Section CacheFacts.
Context {T : Type}.
Implicit Types (c : Cache.t T) (key : string) (now : Z).

Lemma get_absent now key c :
  Cache.cache c !! key = None -> Cache.get now key c = (None, c).
Proof. unfold Cache.get. by intros ->. Qed.

Lemma get_expired now key c entry :
  Cache.cache c !! key = Some entry ->
  (now - Cache.timestamp entry > Cache.ttl entry)%Z ->
  Cache.get now key c
  = (None, Cache.mk (delete key (Cache.cache c)) (Cache.defaultTTL c)).
Proof.
  intros Hk Hexp. unfold Cache.get, Cache.isExpired. rewrite Hk.
  destruct (Z.gtb_spec (now - Cache.timestamp entry) (Cache.ttl entry));
    [done | lia].
Qed.

Lemma get_expired_deletes now key c entry :
  Cache.cache c !! key = Some entry ->
  (now - Cache.timestamp entry > Cache.ttl entry)%Z ->
  Cache.cache (snd (Cache.get now key c)) !! key = None.
Proof.
  intros Hk Hexp. rewrite (get_expired _ _ _ _ Hk Hexp). simpl.
  apply lookup_delete_eq.
Qed.

Lemma get_live now key c entry :
  Cache.cache c !! key = Some entry ->
  (now - Cache.timestamp entry <= Cache.ttl entry)%Z ->
  Cache.get now key c = (Some (Cache.data entry), c).
Proof.
  intros Hk Hlive. unfold Cache.get, Cache.isExpired. rewrite Hk.
  destruct (Z.gtb_spec (now - Cache.timestamp entry) (Cache.ttl entry));
    [lia | done].
Qed.

Lemma set_lookup now key (data : T) ttl c :
  Cache.cache (Cache.set now key data ttl c) !! key
  = Some (Cache.mkEntry data now
            (Cache.ttl_or_default ttl (Cache.defaultTTL c))).
Proof. unfold Cache.set. simpl. apply lookup_insert_eq. Qed.

Lemma set_ttl_given now key (data : T) x c :
  x <> 0%Z ->
  Cache.cache (Cache.set now key data (Some x) c) !! key
  = Some (Cache.mkEntry data now x).
Proof.
  intros Hx. rewrite set_lookup. unfold Cache.ttl_or_default.
  destruct (Z.eqb_spec x 0); [done | done].
Qed.

Lemma set_ttl_default now key (data : T) c :
  Cache.cache (Cache.set now key data None c) !! key
  = Some (Cache.mkEntry data now (Cache.defaultTTL c)).
Proof. by rewrite set_lookup. Qed.

(** The sweep leaves the entries that are not expired where they are. *)
Lemma cleanup_keeps_live now key c entry :
  Cache.cache c !! key = Some entry ->
  (now - Cache.timestamp entry <= Cache.ttl entry)%Z ->
  Cache.cache (Cache.cleanup now c) !! key = Some entry.
Proof.
  intros Hk Hlive. unfold Cache.cleanup. simpl.
  apply map_lookup_filter_Some. split; [done |]. simpl.
  unfold Cache.isExpired.
  destruct (Z.gtb_spec (now - Cache.timestamp entry) (Cache.ttl entry));
    [lia | done].
Qed.

End CacheFacts.

(** C4. A per-entry TTL of [0] passed to [set] is replaced by the default:
    with the default of five minutes, an entry stored at time [0] with
    [ttl = 0] is still served at time [1], although [1 - 0 > 0].  The other
    parts of the claim hold ([get_absent], [get_expired],
    [get_expired_deletes], [set_ttl_given], [set_ttl_default]). *)
Theorem set_ttl_zero_falls_back :
  let c0 : Cache.t string := Cache.new None in
  let c1 := Cache.set 0 "k" "v" (Some 0%Z) c0 in
  Cache.ttl <$> (Cache.cache c1 !! "k") = Some 300000%Z
  /\ fst (Cache.get 1 "k" c1) = Some "v"
  /\ Cache.cache (snd (Cache.get 1 "k" c1)) !! "k" <> None.
Proof. vm_compute. repeat split; congruence. Qed.

(** ** SchemaValidator *)

Section ValidatorFacts.
Import SchemaValidator.

Lemma app_assoc_str (a b c : string) : (a +:+ b) +:+ c = a +:+ (b +:+ c).
Proof.
  induction a as [| x a IH]; [reflexivity |].
  change (String x ((a +:+ b) +:+ c) = String x (a +:+ (b +:+ c))).
  by rewrite IH.
Qed.

Lemma prefix_app (p s : string) : String.prefix p (p +:+ s) = true.
Proof.
  induction p as [| c p IH]; simpl.
  - by destruct s.
  - destruct (ascii_dec c c); [done | congruence].
Qed.

Lemma includes_prefix (p x : string) :
  String.prefix p x = true -> str_includes p x = true.
Proof. intros H. destruct x; cbn [str_includes]; by rewrite H. Qed.

Lemma includes_here (p s : string) : str_includes p (p +:+ s) = true.
Proof. apply includes_prefix, prefix_app. Qed.

Lemma includes_app_r (p a s : string) :
  str_includes p s = true -> str_includes p (a +:+ s) = true.
Proof.
  intros H. induction a as [| c a IH]; simpl; [done |].
  rewrite IH. apply orb_true_r.
Qed.

Lemma andThen_throw (r : Result unit) (e : Exn) :
  exists e', andThen r (Throw e) = Throw e'.
Proof. destruct r; simpl; eauto. Qed.

Lemma andThen_throw_l (e : Exn) (k : Result unit) :
  andThen (Throw e) k = Throw e.
Proof. done. Qed.

Lemma includes_spec (xs : list string) (k : string) :
  SchemaValidator.includes xs k = true <-> k ∈ xs.
Proof.
  unfold SchemaValidator.includes. rewrite existsb_exists.
  split.
  - intros (x & Hin & Heq). apply String.eqb_eq in Heq. subst.
    by apply list_elem_of_In.
  - intros Hin. exists k. split; [by apply list_elem_of_In |].
    apply String.eqb_refl.
Qed.

Lemma keys_validators (ps : list (string * Schema)) :
  keys (map (fun kv => (fst kv, validate (snd kv))) ps) = keys ps.
Proof. unfold keys. rewrite map_map. done. Qed.

End ValidatorFacts.

(** C5. With a value that is [undefined] or [null], [validate] passes when
    the schema is nullable or not contextually required ([schema.required]
    is not set), and otherwise throws [Parameter "<name>" is required],
    which names the parameter. *)
Theorem validate_absent_value
    (schema : SchemaValidator.Schema) (v : Value) (paramName : string) :
  v = VUndefined \/ v = VNull ->
  (SchemaValidator.nullable_true schema = true
   \/ SchemaValidator.contextually_required schema = false ->
   SchemaValidator.validate schema v paramName = Ok tt)
  /\ (SchemaValidator.nullable_true schema = false
      /\ SchemaValidator.contextually_required schema = true ->
      SchemaValidator.validate schema v paramName
      = Throw (Error ("Parameter " +:+ SchemaValidator.quoted paramName
                        +:+ " is required"))
      /\ str_includes paramName
           ("Parameter " +:+ SchemaValidator.quoted paramName
              +:+ " is required") = true).
Proof.
  intros Hv. split.
  - intros Hpass. destruct schema as [ref | f items props ap]; simpl in *.
    + done.
    + destruct Hv as [-> | ->]; destruct Hpass as [-> | ->]; simpl; try done;
        by rewrite orb_true_r.
  - intros [Hn Hr]. split.
    + destruct schema as [ref | f items props ap]; simpl in Hn, Hr |- *.
      * done.
      * destruct Hv as [-> | ->]; rewrite Hn, Hr; done.
    + apply (includes_app_r _ "Parameter ").
      unfold SchemaValidator.quoted. rewrite !app_assoc_str.
      apply (includes_app_r _ dquote). apply includes_here.
Qed.

Lemma validate_absent_value_witness :
  (VNull = VUndefined \/ VNull = VNull)
  /\ (SchemaValidator.nullable_true Samples.schema_required = false
      /\ SchemaValidator.contextually_required Samples.schema_required = true)
  /\ SchemaValidator.validate Samples.schema_required VNull "body"
     = Throw (Error ("Parameter " +:+ SchemaValidator.quoted "body"
                       +:+ " is required")).
Proof.
  split; [right; reflexivity |]. split; [split; reflexivity |].
  apply (validate_absent_value Samples.schema_required VNull "body");
    [right; reflexivity | split; reflexivity].
Defined.

Section PatternFacts.
Import SchemaValidator.

Lemma validateString_pattern (f : Facets) (p : Pattern) (s paramName : string) :
  pattern f = Some p ->
  RegExp_test p s = false ->
  (exists e, validateString s f paramName = Throw e)
  /\ ((match enum f with
       | Some e => includes_string e s
       | None => true
       end) = true ->
      validateString s f paramName
      = Throw (Error ("Parameter " +:+ quoted paramName
                        +:+ " does not match pattern: " +:+ source p))).
Proof.
  intros Hp Ht. unfold validateString. rewrite Hp, Ht.
  assert (String.eqb (source p) "" = false) as ->.
  { unfold RegExp_test in Ht. by apply orb_false_iff in Ht as [-> _]. }
  simpl. split.
  - destruct (enum f) as [e |]; [destruct (includes_string e s) |];
      simpl; eauto.
  - intros He. destruct (enum f) as [e |]; [rewrite He |]; done.
Qed.

Lemma extra_key_rejected
    (props : option (list (string * (Value -> string -> Result unit))))
    (fields : list (string * Value)) (f : Facets) (paramName k : string) :
  k ∈ keys fields ->
  k ∉ keys (default [] props) ->
  exists e, validateObject props true fields f paramName = Throw e.
Proof.
  intros Hin Hnot. unfold validateObject.
  set (extra := filter _ (keys fields)).
  assert (k ∈ extra) as Hex.
  { apply list_elem_of_filter. split; [| done].
    apply Is_true_true. apply negb_true_iff.
    destruct (SchemaValidator.includes (keys (default [] props)) k) eqn:E;
      [| done].
    by apply includes_spec in E. }
  assert ((0 <? length extra)%nat = true) as ->.
  { apply Nat.ltb_lt. destruct extra; [by apply elem_of_nil in Hex |].
    simpl. lia. }
  destruct (match required f with
            | Some r => check_required r fields paramName
            | None => ok
            end); [| by eauto].
  simpl. apply andThen_throw.
Qed.

End PatternFacts.

(** C8 (amended). For a schema of type [string], a string that violates
    the schema's pattern is rejected, and when the schema has no [enum] or
    the string is one of its members the error is
    [Parameter "<name>" does not match pattern: <pattern>], naming both.
    For a schema of type [object] with [additionalProperties === false], an
    object with a key that is not among the schema's properties is
    rejected. *)
Theorem validate_pattern_and_additionalProperties :
  (forall f items props ap p s paramName,
      SchemaValidator.type f = Some "string" ->
      SchemaValidator.pattern f = Some p ->
      SchemaValidator.RegExp_test p s = false ->
      (exists e,
          SchemaValidator.validate
            (SchemaValidator.SchemaObject f items props ap) (VStr s) paramName
          = Throw e)
      /\ ((match SchemaValidator.enum f with
           | Some e => SchemaValidator.includes_string e s
           | None => true
           end) = true ->
          SchemaValidator.validate
            (SchemaValidator.SchemaObject f items props ap) (VStr s) paramName
          = Throw (Error ("Parameter " +:+ SchemaValidator.quoted paramName
                            +:+ " does not match pattern: "
                            +:+ SchemaValidator.source p))))
  /\ (forall f items props fields k paramName,
        SchemaValidator.type f = Some "object" ->
        k ∈ SchemaValidator.keys fields ->
        k ∉ SchemaValidator.keys (default [] props) ->
        exists e,
          SchemaValidator.validate
            (SchemaValidator.SchemaObject f items props (Some (inl false)))
            (VObj fields) paramName
          = Throw e).
Proof.
  split.
  - intros f items props ap p s paramName Ht Hp Hv.
    cbn [SchemaValidator.validate]. rewrite Ht.
    change (String.eqb "string" "string") with true.
    by apply validateString_pattern.
  - intros f items props fields k paramName Ht Hin Hnot.
    cbn [SchemaValidator.validate]. rewrite Ht.
    apply extra_key_rejected with (k := k); [done |].
    destruct props as [ps |]; [| done]. simpl. by rewrite keys_validators.
Qed.

Lemma validate_pattern_and_additionalProperties_witness :
  SchemaValidator.validate Samples.schema_string_pattern (VStr "b") "p"
  = Throw (Error ("Parameter " +:+ SchemaValidator.quoted "p"
                    +:+ " does not match pattern: ^a$"))
  /\ exists e,
      SchemaValidator.validate Samples.schema_closed
        (VObj [("id", VNum 1); ("extra", VNum 2)]) "body"
      = Throw e.
Proof.
  split.
  - apply (proj1 validate_pattern_and_additionalProperties
             (Samples.with_type "string" Samples.facets_pattern) None None None
             Samples.only_a "b" "p");
      reflexivity.
  - apply (proj2 validate_pattern_and_additionalProperties
             (Samples.with_type "object" Samples.no_facets) None
             (Some [("id", SchemaValidator.SchemaObject
                             (Samples.with_type "integer" Samples.no_facets)
                             None None None)])
             [("id", VNum 1); ("extra", VNum 2)] "extra" "body").
    + reflexivity.
    + apply list_elem_of_In. simpl. auto.
    + intros H. apply list_elem_of_In in H. simpl in H.
      destruct H as [H | []]. discriminate H.
Defined.

(** C8, as stated, fails on two inputs.  A schema with a pattern and no
    [type] accepts a string that violates the pattern; and when the [enum]
    check fails first, the error names the enumeration, not the pattern. *)
Lemma pattern_violation_not_named :
  SchemaValidator.RegExp_test Samples.only_a "b" = false
  /\ SchemaValidator.validate Samples.schema_pattern_only (VStr "b") "p"
     = Ok tt
  /\ SchemaValidator.validate Samples.schema_enum_pattern (VStr "b") "p"
     = Throw (Error ("Parameter " +:+ SchemaValidator.quoted "p"
                       +:+ " must be one of: a"))
  /\ str_includes "^a$" ("Parameter " +:+ SchemaValidator.quoted "p"
                           +:+ " must be one of: a") = false.
Proof. vm_compute. repeat split. Qed.

(** ** HttpClient *)

Section HttpClientFacts.
Variable config : Config.
Variable backend : Backend.

#[local] Abbreviation client_request := (HttpClient.client_request backend).
#[local] Abbreviation shouldRetry := (HttpClient.shouldRetry config).
#[local] Abbreviation request_loop := (HttpClient.request_loop config backend).
#[local] Abbreviation request := (HttpClient.request config backend).
#[local] Abbreviation delay := HttpClient.delay.

Lemma attempts_app (a b : list Event) :
  attempts (a ++ b) = (attempts a + attempts b)%nat.
Proof. unfold attempts. by rewrite filter_app, length_app. Qed.

Lemma attempts_cons e (tr : list Event) :
  attempts (e :: tr) = ((if is_attempt e then 1 else 0) + attempts tr)%nat.
Proof. unfold attempts. rewrite filter_cons. by destruct e. Qed.

Lemma attempts_nil : attempts [] = 0%nat.
Proof. done. Qed.

Lemma requests_app (a b : list Event) :
  requests (a ++ b) = (requests a + requests b)%nat.
Proof. unfold requests. by rewrite filter_app, length_app. Qed.

Lemma retried_S rc from k :
  retried config rc from (S k)
  = [EvAttempt rc; EvDelay (retryDelay config * 2 ^ from)%Z]
      ++ retried config rc (from + 1)%Z k.
Proof.
  unfold retried. rewrite <- cons_seq, <- seq_shift. cbn [flat_map].
  rewrite Z.add_0_r. f_equal.
  induction (seq 0 k) as [| i l IH]; [done |]. cbn [map flat_map].
  rewrite IH.
  by replace (from + Z.of_nat (S i))%Z with (from + 1 + Z.of_nat i)%Z by lia.
Qed.

Lemma attempts_retried rc from k : attempts (retried config rc from k) = k.
Proof.
  revert from. induction k as [| k IH]; intros from; [done |].
  rewrite retried_S, attempts_app, IH. done.
Qed.

Lemma delays_retried rc from k :
  delays (retried config rc from k)
  = map (fun i => (retryDelay config * 2 ^ (from + Z.of_nat i))%Z) (seq 0 k).
Proof.
  unfold retried. induction (seq 0 k) as [| i l IH]; [done |].
  cbn [flat_map map]. rewrite <- IH. done.
Qed.

(** One attempt: what it adds to the world. *)
Lemma client_request_world rc w :
  let w' := snd (client_request rc w) in
  added [EvAttempt rc] w w' /\ cache w' = cache w.
Proof.
  unfold HttpClient.client_request, added.
  destruct (outcome _) as [msg | r]; [done |].
  destruct (default _ _ _); done.
Qed.

(** The retry predicate. *)
Lemma shouldRetry_iff error attempt :
  shouldRetry error attempt = true
  <-> (attempt < maxRetries config)%Z
      /\ (HttpClient.exn_response error = None
          \/ exists r, HttpClient.exn_response error = Some r
                       /\ (500 <= status r < 600)%Z).
Proof.
  unfold HttpClient.shouldRetry.
  destruct (Z.geb_spec attempt (maxRetries config)).
  - split; [done | lia].
  - destruct (HttpClient.exn_response error) as [r |].
    + rewrite andb_true_iff, Z.geb_le, Z.ltb_lt. split.
      * intros [??]. split; [lia |]. right. exists r. split; [done | lia].
      * intros [_ [? | (r' & [= <-] & ?)]]; [done | lia].
    + split; [intros _; split; [lia | by left] | done].
Qed.

(** One iteration of the loop: a resolved attempt returns at once, a
    rejected one is either retried after its delay or rethrown at
    once. *)
Lemma request_loop_step fuel attempt lastError rc w :
  (attempt <= maxRetries config)%Z ->
  request_loop (S fuel) attempt lastError rc w
  = match client_request rc w with
    | (Ok r, w') => (Ok r, w')
    | (Throw error, w') =>
        if shouldRetry error attempt
        then request_loop fuel (attempt + 1)%Z (Some error) rc
               (snd (delay (retryDelay config * 2 ^ attempt)%Z w'))
        else (Throw error, w')
    end.
Proof.
  intros Hle. cbn [HttpClient.request_loop].
  destruct (Z.leb_spec attempt (maxRetries config)); [| lia].
  unfold try_catch. destruct (client_request rc w) as [[r | error] w'];
    [done |].
  destruct (shouldRetry error attempt); done.
Qed.

Lemma added_trans a b w w1 w2 :
  added a w w1 -> added b w1 w2 -> added (a ++ b) w w2.
Proof. unfold added. intros H1 ->. rewrite H1. by rewrite app_assoc. Qed.

Lemma added_nil w : added [] w w.
Proof. unfold added. by rewrite app_nil_r. Qed.

Lemma delay_world ms w :
  let w' := snd (delay ms w) in
  added [EvDelay ms] w w' /\ cache w' = cache w.
Proof. done. Qed.

(** The run of the loop: the attempts that were retried, each followed
    by its delay, and then at most one last attempt. *)
Lemma request_loop_trace rc fuel :
  forall attempt lastError w,
    let w' := snd (request_loop fuel attempt lastError rc w) in
    cache w' = cache w
    /\ exists k fin,
        added (retried config rc attempt k ++ fin) w w'
        /\ (fin = [] \/ fin = [EvAttempt rc]).
Proof.
  induction fuel as [| fuel IH]; intros attempt lastError w.
  { simpl. split; [done |]. exists 0%nat, []. split; [apply added_nil | by left]. }
  destruct (Z.leb_spec attempt (maxRetries config)) as [Hle | Hgt].
  - rewrite request_loop_step by done.
    pose proof (client_request_world rc w) as [Htr Hc].
    destruct (client_request rc w) as [[r | error] w1]; simpl in Htr, Hc.
    + simpl. split; [done |]. exists 0%nat, [EvAttempt rc]. split; [done | by right].
    + destruct (shouldRetry error attempt).
      * specialize (IH (attempt + 1)%Z (Some error)
                      (snd (delay (retryDelay config * 2 ^ attempt)%Z w1))).
        destruct IH as [IHc (k & fin & IHtr & Hfin)].
        split; [by rewrite IHc |].
        exists (S k), fin. split; [| done].
        rewrite retried_S.
        pose proof (delay_world (retryDelay config * 2 ^ attempt)%Z w1)
          as [Hd _].
        pose proof (added_trans _ _ _ _ _ (added_trans _ _ _ _ _ Htr Hd) IHtr)
          as H.
        unfold added in *. rewrite H. by rewrite <- !app_assoc.
      * simpl. split; [done |]. exists 0%nat, [EvAttempt rc].
        split; [done | by right].
  - cbn [HttpClient.request_loop].
    destruct (Z.leb_spec attempt (maxRetries config)); [lia |].
    simpl. split; [done |]. exists 0%nat, [].
    split; [apply added_nil | by left].
Qed.

(** An answered attempt, as axios settles it. *)
Lemma client_request_answer rc w r l :
  backend (attempts (trace w)) rc = mkReply (Answer r) l ->
  client_request rc w
  = (if default HttpClient.validateStatus_default (rq_validateStatus rc)
          (status r)
     then Ok r
     else Throw (AxiosError ("Request failed with status code "
                               +:+ pretty (status r)) (Some r)),
     mkWorld (now w + Z.of_nat l) (cache w) (trace w ++ [EvAttempt rc])).
Proof.
  intros Hb. unfold HttpClient.client_request. rewrite Hb. simpl.
  destruct (default _ _ _); done.
Qed.

(** A remote side that always answers with a status the request does not
    accept and that lies in [[500,600)]: every iteration left is used. *)
Lemma request_loop_always_5xx rc s :
  always_status backend s ->
  (500 <= s < 600)%Z ->
  default HttpClient.validateStatus_default (rq_validateStatus rc) s = false ->
  forall n attempt lastError w,
    Z.of_nat (S n) = (maxRetries config + 1 - attempt)%Z ->
    exists msg r w',
      request_loop (S n) attempt lastError rc w
      = (Throw (AxiosError msg (Some r)), w')
      /\ status r = s
      /\ added (retried config rc attempt n ++ [EvAttempt rc]) w w'.
Proof.
  intros Hall Hs Hrej. induction n as [| n IH]; intros attempt lastError w Hfuel.
  - rewrite request_loop_step by lia.
    destruct (Hall (attempts (trace w)) rc) as (r & l & Hb & Hst).
    rewrite (client_request_answer _ _ _ _ Hb), Hst, Hrej.
    assert (shouldRetry (AxiosError ("Request failed with status code "
                                       +:+ pretty s) (Some r)) attempt
            = false) as ->.
    { unfold HttpClient.shouldRetry.
      destruct (Z.geb_spec attempt (maxRetries config)); [done | lia]. }
    do 3 eexists. split; [done |]. split; [done |]. done.
  - rewrite request_loop_step by lia.
    destruct (Hall (attempts (trace w)) rc) as (r & l & Hb & Hst).
    rewrite (client_request_answer _ _ _ _ Hb), Hst, Hrej.
    assert (shouldRetry (AxiosError ("Request failed with status code "
                                       +:+ pretty s) (Some r)) attempt
            = true) as ->.
    { apply shouldRetry_iff. split; [lia |]. right. exists r.
      split; [done | lia]. }
    edestruct (IH (attempt + 1)%Z) as (msg & r' & w' & Heq & Hst' & Htr);
      [lia |].
    rewrite Heq. do 3 eexists. split; [done |]. split; [done |].
    rewrite retried_S. unfold added in *. rewrite Htr. simpl.
    by rewrite <- !app_assoc.
Qed.

(** An attempt that is answered with an accepted status ends the
    request. *)
Lemma request_first_accepted rc w r l :
  (0 <= maxRetries config)%Z ->
  backend (attempts (trace w)) rc = mkReply (Answer r) l ->
  default HttpClient.validateStatus_default (rq_validateStatus rc) (status r)
  = true ->
  exists w',
    request rc w = (Ok r, w')
    /\ added [EvRequest rc; EvAttempt rc] w w'
    /\ cache w' = cache w.
Proof.
  intros Hmax Hb Hacc. unfold HttpClient.request, mbind, M_bind. simpl.
  destruct (Z.to_nat (maxRetries config + 1)) as [| n] eqn:Hn; [lia |].
  rewrite request_loop_step by lia.
  rewrite (client_request_answer _ _ r l).
  - rewrite Hacc. eexists. split; [done |]. simpl. unfold added. simpl.
    by rewrite <- app_assoc.
  - simpl. rewrite attempts_app. simpl. by rewrite Nat.add_0_r.
Qed.

(** An attempt that is answered with a status that is neither accepted
    nor in [[500,600)] ends the request with that error. *)
Lemma request_first_rejected rc w r l :
  (0 <= maxRetries config)%Z ->
  backend (attempts (trace w)) rc = mkReply (Answer r) l ->
  default HttpClient.validateStatus_default (rq_validateStatus rc) (status r)
  = false ->
  ~ (500 <= status r < 600)%Z ->
  exists msg w',
    request rc w = (Throw (AxiosError msg (Some r)), w')
    /\ added [EvRequest rc; EvAttempt rc] w w'.
Proof.
  intros Hmax Hb Hrej Hs. unfold HttpClient.request, mbind, M_bind. simpl.
  destruct (Z.to_nat (maxRetries config + 1)) as [| n] eqn:Hn; [lia |].
  rewrite request_loop_step by lia.
  rewrite (client_request_answer _ _ r l).
  - rewrite Hrej.
    destruct (shouldRetry _ 0%Z) eqn:E.
    + apply shouldRetry_iff in E as [_ [E | (r' & [= <-] & E)]]; [done | lia].
    + do 2 eexists. split; [done |]. unfold added. simpl.
      by rewrite <- app_assoc.
  - simpl. rewrite attempts_app. simpl. by rewrite Nat.add_0_r.
Qed.

(** The run of [request]: the call, the retried attempts with their
    delays, at most one last attempt; the cache is not touched. *)
(** When the remote side answers every attempt, a request that accepts
    every status puts at most one attempt on the wire. *)
Lemma request_answered rc w :
  (forall n rc', exists r l, backend n rc' = mkReply (Answer r) l) ->
  (forall s, default HttpClient.validateStatus_default (rq_validateStatus rc) s
             = true) ->
  (attempts (trace (snd (request rc w))) <= attempts (trace w) + 1)%nat.
Proof.
  intros Hall Hacc. destruct (Z.ltb_spec (maxRetries config) 0) as [Hneg | Hmax].
  - unfold HttpClient.request, mbind, M_bind. simpl.
    replace (Z.to_nat (maxRetries config + 1)) with 0%nat by lia. simpl.
    rewrite attempts_app, attempts_cons, attempts_nil. simpl. lia.
  - destruct (Hall (attempts (trace w)) rc) as (r & l & Hb).
    destruct (request_first_accepted rc w r l Hmax Hb (Hacc (status r)))
      as (w' & -> & Htr & _).
    simpl. unfold added in Htr.
    rewrite Htr, attempts_app, !attempts_cons, attempts_nil. simpl. lia.
Qed.

(** Fuel beyond the iterations that the loop condition allows changes
    nothing: [request] starts the loop with enough of it. *)
Lemma request_loop_fuel rc extra fuel :
  forall attempt lastError w,
    (maxRetries config + 1 - attempt <= Z.of_nat fuel)%Z ->
    request_loop (fuel + extra) attempt lastError rc w
    = request_loop fuel attempt lastError rc w.
Proof.
  induction fuel as [| fuel IH]; intros attempt lastError w Hfuel.
  - destruct extra as [| extra]; [done |]. cbn [HttpClient.request_loop plus].
    destruct (Z.leb_spec attempt (maxRetries config)); [lia | done].
  - change (S fuel + extra)%nat with (S (fuel + extra)).
    cbn [HttpClient.request_loop].
    destruct (Z.leb_spec attempt (maxRetries config)); [| done].
    unfold try_catch. destruct (client_request rc w) as [[r | error] w'];
      [done |].
    destruct (negb (shouldRetry error attempt)); [done |].
    unfold mbind, M_bind. simpl. apply IH. lia.
Qed.

Lemma request_world rc w :
  let w' := snd (request rc w) in
  cache w' = cache w
  /\ exists k fin,
      added (EvRequest rc :: retried config rc 0 k ++ fin) w w'
      /\ (fin = [] \/ fin = [EvAttempt rc]).
Proof.
  unfold HttpClient.request, mbind, M_bind. simpl.
  set (w1 := mkWorld (now w) (cache w) (trace w ++ [EvRequest rc])).
  destruct (request_loop_trace rc (Z.to_nat (maxRetries config + 1))
              0%Z None w1) as [Hc (k & fin & Htr & Hfin)].
  split; [done |]. exists k, fin. split; [| done].
  unfold added in *. rewrite Htr. simpl. by rewrite <- app_assoc.
Qed.

End HttpClientFacts.

(** C9. The run of [request] is: the call, then the attempts that were
    retried, attempt number [i] (from zero) followed by a delay of exactly
    [retryDelay * 2 ^ i], then at most one last attempt. *)
Theorem retry_delay_exponential
    (config : Config) (backend : Backend) (rc : AxiosRequestConfig) (w : World) :
  exists k fin,
    added (EvRequest rc :: retried config rc 0 k ++ fin) w
          (snd (HttpClient.request config backend rc w))
    /\ (fin = [] \/ fin = [EvAttempt rc])
    /\ delays (EvRequest rc :: retried config rc 0 k ++ fin)
       = map (fun i => (retryDelay config * 2 ^ Z.of_nat i)%Z) (seq 0 k).
Proof.
  destruct (request_world config backend rc w) as [_ (k & fin & Htr & Hfin)].
  exists k, fin. split; [done |]. split; [done |].
  change (EvRequest rc :: retried config rc 0 k ++ fin)
    with ([EvRequest rc] ++ retried config rc 0 k ++ fin).
  unfold delays. rewrite !omap_app.
  pose proof (delays_retried config rc 0%Z k) as Hd. unfold delays in Hd.
  rewrite Hd. destruct Hfin as [-> | ->]; simpl; by rewrite app_nil_r.
Qed.

(** The delays against a remote side that cannot be reached, with the
    default configuration: one, two and four seconds. *)
Example delays_when_unreachable :
  delays (trace (snd (HttpClient.get Samples.defaults Samples.unreachable
                        "https://petstore3.swagger.io/api/v3/openapi.json"
                        Samples.start)))
  = [1000; 2000; 4000]%Z.
Proof. vm_compute. reflexivity. Qed.

(** C2 (amended).  An attempt that axios rejects is retried exactly when
    its index is below [maxRetries] and the error carries no response or a
    response with a status in [[500,600)]; a resolved attempt returns at
    once and any other rejected attempt rethrows at once.  Against a remote
    side that always answers with status [s]: if the request accepts [s]
    (axios's default accepts [[200,300)]; a request with
    [validateStatus: () => true], as [execute] sends, accepts every status)
    there is one attempt and the response is returned; if it rejects [s]
    and [s] is in [[500,600)] there are [maxRetries + 1] attempts and the
    error of the last surfaces; if it rejects any other [s] there is one
    attempt and its error surfaces. *)
Theorem request_retry_policy (config : Config) (backend : Backend) :
  (0 <= maxRetries config)%Z ->
  (forall error attempt,
      HttpClient.shouldRetry config error attempt = true
      <-> (attempt < maxRetries config)%Z
          /\ (HttpClient.exn_response error = None
              \/ exists r, HttpClient.exn_response error = Some r
                           /\ (500 <= status r < 600)%Z))
  /\ (forall fuel attempt lastError rc w,
        (attempt <= maxRetries config)%Z ->
        HttpClient.request_loop config backend (S fuel) attempt lastError rc w
        = match HttpClient.client_request backend rc w with
          | (Ok r, w') => (Ok r, w')
          | (Throw error, w') =>
              if HttpClient.shouldRetry config error attempt
              then HttpClient.request_loop config backend fuel (attempt + 1)%Z
                     (Some error) rc
                     (snd (HttpClient.delay
                             (retryDelay config * 2 ^ attempt)%Z w'))
              else (Throw error, w')
          end)
  /\ (forall s rc w,
        always_status backend s ->
        let run := HttpClient.request config backend rc w in
        let made := (attempts (trace (snd run)) - attempts (trace w))%nat in
        if default HttpClient.validateStatus_default (rq_validateStatus rc) s
        then (exists r, fst run = Ok r /\ status r = s) /\ made = 1%nat
        else
          (exists msg r,
              fst run = Throw (AxiosError msg (Some r)) /\ status r = s)
          /\ made = (if ((500 <=? s) && (s <? 600))%Z
                     then Z.to_nat (maxRetries config + 1)
                     else 1%nat)).
Proof.
  intros Hmax. split; [apply shouldRetry_iff |].
  split; [intros; by apply request_loop_step |].
  intros s rc w Hall. cbv zeta.
  destruct (default _ _ s) eqn:Hacc.
  - destruct (Hall (attempts (trace w)) rc) as (r & l & Hb & Hst).
    rewrite <- Hst in Hacc.
    destruct (request_first_accepted config backend rc w r l Hmax Hb Hacc)
      as (w' & -> & Htr & _).
    simpl. split; [by exists r |].
    unfold added in Htr.
    rewrite Htr, attempts_app, !attempts_cons, attempts_nil. simpl. lia.
  - destruct ((500 <=? s) && (s <? 600))%Z eqn:H5.
    + apply andb_true_iff in H5 as [Hlo%Z.leb_le Hhi%Z.ltb_lt].
      unfold HttpClient.request, mbind, M_bind. simpl.
      destruct (Z.to_nat (maxRetries config + 1)) as [| n] eqn:Hn; [lia |].
      assert (Z.of_nat (S n) = (maxRetries config + 1 - 0)%Z) as Hfuel by lia.
      destruct (request_loop_always_5xx config backend rc s Hall
                  (conj Hlo Hhi) Hacc n 0%Z None
                  (mkWorld (now w) (cache w) (trace w ++ [EvRequest rc]))
                  Hfuel)
        as (msg & r & w' & -> & Hst & Htr).
      simpl. split; [by exists msg, r |].
      unfold added in Htr. rewrite Htr. simpl.
      rewrite !attempts_app, attempts_retried, !attempts_cons, attempts_nil.
      simpl. lia.
    + destruct (Hall (attempts (trace w)) rc) as (r & l & Hb & Hst).
      rewrite <- Hst in Hacc.
      edestruct (request_first_rejected config backend rc w r l Hmax Hb Hacc)
        as (msg & w' & -> & Htr).
      { rewrite Hst. intros [Hlo%Z.leb_le Hhi%Z.ltb_lt].
        by rewrite Hlo, Hhi in H5. }
      simpl. split; [by exists msg, r |].
      unfold added in Htr.
      rewrite Htr, attempts_app, !attempts_cons, attempts_nil. simpl. lia.
Qed.

Lemma answer_always (s : Z) (text : string) (body : Value) :
  always_status (Samples.answer s text body) s.
Proof. intros n rc. by exists (mkResponse s text [] body), 5%nat. Qed.

Lemma request_retry_policy_witness :
  (0 <= maxRetries Samples.defaults)%Z
  /\ let run :=
       HttpClient.request Samples.defaults Samples.always_503
         (mkRequest "GET" "https://petstore3.swagger.io/api/v3/openapi.json"
                    [] [] VUndefined None) Samples.start in
     (exists msg r,
         fst run = Throw (AxiosError msg (Some r)) /\ status r = 503%Z)
     /\ (attempts (trace (snd run)) - attempts (trace Samples.start))%nat
        = 4%nat.
Proof.
  assert (0 <= maxRetries Samples.defaults)%Z as Hmax by (simpl; lia).
  split; [exact Hmax |].
  exact (proj2 (proj2 (request_retry_policy Samples.defaults
                         Samples.always_503 Hmax))
           503%Z
           (mkRequest "GET" "https://petstore3.swagger.io/api/v3/openapi.json"
                      [] [] VUndefined None)
           Samples.start
           (answer_always 503 "Service Unavailable" VNull)).
Defined.

(** C2, as stated, fails for the requests [execute] sends: they carry
    [validateStatus: () => true], so a response with status 503 resolves
    the first attempt.  With [maxRetries = 3] the remote side is called
    once, not four times, and no error surfaces. *)
Lemma accepted_503_not_retried :
  let run := HttpClient.request Samples.defaults Samples.always_503
               Samples.getPet_request Samples.start in
  let exec := ToolExecutor.execute Samples.defaults Samples.always_503
                Samples.getPetById Samples.args_id_key Samples.start in
  maxRetries Samples.defaults = 3%Z
  /\ fst run = Ok (mkResponse 503 "Service Unavailable" [] VNull)
  /\ attempts (trace (snd run)) = 1%nat
  /\ fst exec = Ok (mkApiResponse 503 "Service Unavailable" [] VNull)
  /\ trace (snd exec)
     = [EvCacheGet ("getPetById:{" +:+ dquote +:+ "id" +:+ dquote +:+ ":7}");
        EvRequest Samples.getPet_request;
        EvAttempt Samples.getPet_request].
Proof. vm_compute. repeat split. Qed.

(** ** ToolExecutor *)

Section ExecutorFacts.
Variable config : Config.
Variable backend : Backend.

#[local] Abbreviation execute := (ToolExecutor.execute config backend).
#[local] Abbreviation dispatch := (ToolExecutor.dispatch config backend).
#[local] Abbreviation buildRequest := (ToolExecutor.buildRequest config).
#[local] Abbreviation request := (HttpClient.request config backend).

Implicit Types (tool : ApiTool.t) (args : gmap string Value) (w : World).

Lemma key_nonempty (a b : string) : String.eqb (a +:+ ":" +:+ b) "" = false.
Proof. by destruct a. Qed.

Lemma truthy_fingerprint tool args :
  ToolExecutor.is_get tool = true ->
  ToolExecutor.truthy_key (ToolExecutor.buildCacheKey tool args)
  = Some (fingerprint tool args).
Proof.
  unfold ToolExecutor.is_get, ToolExecutor.buildCacheKey. intros ->. simpl.
  fold (fingerprint tool args). unfold fingerprint.
  by rewrite key_nonempty.
Qed.

Lemma no_key_unless_get tool args :
  ToolExecutor.is_get tool = false ->
  ToolExecutor.buildCacheKey tool args = None.
Proof. unfold ToolExecutor.is_get, ToolExecutor.buildCacheKey. by intros ->. Qed.

(** [execute] on a GET: the lookup comes first, and a hit is the
    result. *)
Lemma execute_get tool args w :
  ToolExecutor.is_get tool = true ->
  execute tool args w
  = match cached_response w tool args with
    | Some c => (Ok c, looked_up tool args w)
    | None =>
        try_catch (dispatch tool args (ToolExecutor.buildCacheKey tool args))
                  (ToolExecutor.rethrow tool) (looked_up tool args w)
    end.
Proof.
  intros Hget. unfold ToolExecutor.execute, cached_response, looked_up.
  rewrite (truthy_fingerprint _ _ Hget), Hget.
  unfold mbind, M_bind, ToolExecutor.cache_get.
  destruct (Cache.get _ _ _) as [[c |] c']; done.
Qed.

Lemma execute_other tool args w :
  ToolExecutor.is_get tool = false ->
  execute tool args w
  = try_catch (dispatch tool args None) (ToolExecutor.rethrow tool) w.
Proof.
  intros Hget. unfold ToolExecutor.execute.
  by rewrite (no_key_unless_get _ _ Hget).
Qed.

Lemma rethrow_throws tool error w :
  ToolExecutor.rethrow tool error w = (Throw (rethrown tool error), w).
Proof. unfold ToolExecutor.rethrow, rethrown. by destruct (exn_message _). Qed.

(** Arguments that do not pass [buildRequest]: nothing is sent. *)
Lemma dispatch_invalid tool args cacheKey w error :
  buildRequest tool args = Throw error ->
  try_catch (dispatch tool args cacheKey) (ToolExecutor.rethrow tool) w
  = (Throw (rethrown tool error), w).
Proof.
  intros Hb. unfold try_catch, ToolExecutor.dispatch, mbind, M_bind, lift.
  rewrite Hb. apply rethrow_throws.
Qed.

(** Arguments that pass: the request is sent, and the response of a GET
    with a status in [[200,300)] is stored. *)
Lemma dispatch_valid tool args w built :
  buildRequest tool args = Ok built ->
  try_catch (dispatch tool args (ToolExecutor.buildCacheKey tool args))
            (ToolExecutor.rethrow tool) w
  = match request (request_of tool built) w with
    | (Throw error, w') => (Throw (rethrown tool error), w')
    | (Ok response, w') =>
        (Ok (to_api response),
         if cacheable tool response
         then mkWorld (now w')
                (Cache.set (now w') (fingerprint tool args)
                           (to_api response) None (cache w'))
                (trace w' ++ [EvCacheSet (fingerprint tool args)])
         else w')
    end.
Proof.
  intros Hb. unfold try_catch, ToolExecutor.dispatch, mbind, M_bind, lift.
  rewrite Hb. fold (request_of tool built).
  destruct (request _ w) as [[response | error] w'];
    [| apply rethrow_throws].
  unfold cacheable. fold (to_api response).
  destruct (ToolExecutor.is_get tool) eqn:Hget.
  - rewrite (truthy_fingerprint _ _ Hget). simpl.
    destruct ((status response >=? 200)%Z && (status response <? 300)%Z);
      done.
  - rewrite (no_key_unless_get _ _ Hget). done.
Qed.


End ExecutorFacts.

Section ArgumentFacts.
Variable config : Config.

Implicit Types (tool : ApiTool.t) (args : gmap string Value).

Lemma fold_left_agree {A B} (f g : A -> B -> A) (l : list B) (a : A) :
  (forall x, x ∈ l -> forall acc, f acc x = g acc x) ->
  fold_left f l a = fold_left g l a.
Proof.
  revert a. induction l as [| x l IH]; intros a H; [done |]. simpl.
  rewrite (H x) by apply list_elem_of_here. apply IH.
  intros y Hy. apply H. by apply list_elem_of_further.
Qed.

Lemma filter_agree {A} (P Q : A -> bool) (l : list A) :
  (forall x, x ∈ l -> P x = Q x) ->
  filter P l = filter Q l.
Proof.
  induction l as [| x l IH]; intros H; [done |].
  rewrite !filter_cons. rewrite (H x) by apply list_elem_of_here.
  rewrite IH; [done |]. intros y Hy. apply H. by apply list_elem_of_further.
Qed.

(** Two argument maps that agree on the declared names read the same at
    every parameter. *)
Lemma arg_agree tool args1 args2 :
  (forall p, p ∈ ApiTool.parameters tool ->
             args1 !! ToolParameter.name p = args2 !! ToolParameter.name p) ->
  forall p, p ∈ ApiTool.parameters tool ->
            ToolExecutor.arg args1 (ToolParameter.name p)
            = ToolExecutor.arg args2 (ToolParameter.name p).
Proof. intros H p Hp. unfold ToolExecutor.arg. by rewrite (H p Hp). Qed.

Lemma missingParams_agree tool args1 args2 :
  (forall p, p ∈ ApiTool.parameters tool ->
             args1 !! ToolParameter.name p = args2 !! ToolParameter.name p) ->
  ToolExecutor.missingParams tool args1 = ToolExecutor.missingParams tool args2.
Proof.
  intros H. unfold ToolExecutor.missingParams. f_equal.
  apply filter_agree. intros p Hp. by rewrite (arg_agree _ _ _ H p Hp).
Qed.

Lemma buildRequest_agree tool args1 args2 :
  (forall p, p ∈ ApiTool.parameters tool ->
             args1 !! ToolParameter.name p = args2 !! ToolParameter.name p) ->
  ToolExecutor.buildRequest config tool args1
  = ToolExecutor.buildRequest config tool args2.
Proof.
  intros H. unfold ToolExecutor.buildRequest.
  rewrite (missingParams_agree _ _ _ H).
  rewrite (fold_left_agree (ToolExecutor.process_parameter args1)
                           (ToolExecutor.process_parameter args2)); [done |].
  intros p Hp acc. unfold ToolExecutor.process_parameter.
  by rewrite (arg_agree _ _ _ H p Hp).
Qed.

Lemma relevantArgs_agree tool args1 args2 :
  (forall p, p ∈ ApiTool.parameters tool ->
             args1 !! ToolParameter.name p = args2 !! ToolParameter.name p) ->
  ToolExecutor.relevantArgs tool args1 = ToolExecutor.relevantArgs tool args2.
Proof.
  intros H. unfold ToolExecutor.relevantArgs.
  apply fold_left_agree. intros p Hp acc.
  apply list_elem_of_filter in Hp as [_ Hp].
  by rewrite (arg_agree _ _ _ H p Hp).
Qed.

Lemma buildCacheKey_agree tool args1 args2 :
  (forall p, p ∈ ApiTool.parameters tool ->
             args1 !! ToolParameter.name p = args2 !! ToolParameter.name p) ->
  ToolExecutor.buildCacheKey tool args1 = ToolExecutor.buildCacheKey tool args2.
Proof.
  intros H. unfold ToolExecutor.buildCacheKey.
  by rewrite (relevantArgs_agree _ _ _ H).
Qed.

End ArgumentFacts.

(** C10. Two argument maps that agree on every declared parameter name of
    the tool give the same built request (URL, query parameters, headers
    and body, or the same error), the same cache key, and the same run of
    [execute] from any world: entries under other names have no effect. *)
Theorem undeclared_arguments_have_no_effect
    (config : Config) (backend : Backend) (tool : ApiTool.t)
    (args1 args2 : gmap string Value) :
  (forall p, p ∈ ApiTool.parameters tool ->
             args1 !! ToolParameter.name p = args2 !! ToolParameter.name p) ->
  ToolExecutor.buildRequest config tool args1
  = ToolExecutor.buildRequest config tool args2
  /\ ToolExecutor.buildCacheKey tool args1
     = ToolExecutor.buildCacheKey tool args2
  /\ forall w, ToolExecutor.execute config backend tool args1 w
               = ToolExecutor.execute config backend tool args2 w.
Proof.
  intros H.
  pose proof (buildRequest_agree config _ _ _ H) as Hb.
  pose proof (buildCacheKey_agree _ _ _ H) as Hk.
  split; [done |]. split; [done |].
  intros w. unfold ToolExecutor.execute, ToolExecutor.dispatch.
  by rewrite Hb, Hk.
Qed.

Lemma undeclared_arguments_have_no_effect_witness :
  ToolExecutor.buildRequest Samples.defaults Samples.getPetById
    Samples.args_id_key
  = ToolExecutor.buildRequest Samples.defaults Samples.getPetById
      Samples.args_id_key_debug
  /\ ToolExecutor.buildCacheKey Samples.getPetById Samples.args_id_key
     = ToolExecutor.buildCacheKey Samples.getPetById Samples.args_id_key_debug
  /\ forall w,
      ToolExecutor.execute Samples.defaults Samples.always_200
        Samples.getPetById Samples.args_id_key w
      = ToolExecutor.execute Samples.defaults Samples.always_200
          Samples.getPetById Samples.args_id_key_debug w.
Proof.
  apply (undeclared_arguments_have_no_effect Samples.defaults
           Samples.always_200 Samples.getPetById Samples.args_id_key
           Samples.args_id_key_debug).
  intros p Hp. apply list_elem_of_In in Hp. simpl in Hp.
  destruct Hp as [<- | [<- | []]]; vm_compute; reflexivity.
Defined.

Section PipelineFacts.
Variable config : Config.
Variable backend : Backend.

Implicit Types (tool : ApiTool.t) (args : gmap string Value) (w : World).

Lemma get_Some_inv {T} now key (c : Cache.t T) x :
  fst (Cache.get now key c) = Some x ->
  exists entry,
    Cache.cache c !! key = Some entry
    /\ Cache.data entry = x
    /\ (now - Cache.timestamp entry <= Cache.ttl entry)%Z
    /\ snd (Cache.get now key c) = c.
Proof.
  unfold Cache.get, Cache.isExpired.
  destruct (Cache.cache c !! key) as [entry |]; [| done].
  destruct (Z.gtb_spec (now - Cache.timestamp entry) (Cache.ttl entry));
    [done |].
  simpl. intros [= <-]. exists entry. repeat split; (done || lia).
Qed.

Lemma get_defaultTTL {T} now key (c : Cache.t T) :
  Cache.defaultTTL (snd (Cache.get now key c)) = Cache.defaultTTL c.
Proof.
  unfold Cache.get. destruct (Cache.cache c !! key) as [entry |]; [| done].
  by destruct (Cache.isExpired now entry).
Qed.

Lemma requests_cons e (tr : list Event) :
  requests (e :: tr) = ((if is_request e then 1 else 0) + requests tr)%nat.
Proof. unfold requests. rewrite filter_cons. by destruct e. Qed.

Lemma requests_nil : requests [] = 0%nat.
Proof. done. Qed.

Lemma requests_retried rc from k : requests (retried config rc from k) = 0%nat.
Proof.
  unfold retried. induction (seq 0 k) as [| i l IH]; [done |].
  cbn [flat_map]. rewrite requests_app, IH. done.
Qed.


End PipelineFacts.

(** Traces up to the bracketing of their concatenations. *)
Ltac same_trace :=
  repeat first [rewrite <- app_assoc | rewrite app_nil_r | progress simpl];
  try done.

(** Counting the requests and the attempts of a trace. *)
Ltac count_events :=
  repeat (rewrite ?requests_app, ?attempts_app, ?requests_cons, ?attempts_cons,
            ?requests_nil, ?attempts_nil, ?requests_retried,
            ?attempts_retried; simpl).




(** C3 (amended).  A call of [execute] is one pass through the steps, in
    this order: the cache lookup (for a GET), which ends the call on a
    hit, before any argument is validated; then the validation of the
    required parameters and the build of the request, which end the call
    with an error when they fail; then the request with its attempts; then
    the store in the cache (for a GET answered with a status in
    [[200,300)]); then the return. *)
Theorem execute_pipeline
    (config : Config) (backend : Backend) (tool : ApiTool.t)
    (args : gmap string Value) (w : World) :
  let run := ToolExecutor.execute config backend tool args w in
  let key := fingerprint tool args in
  let lookup := if ToolExecutor.is_get tool then [EvCacheGet key] else [] in
  match cached_response w tool args with
  | Some c => fst run = Ok c /\ added lookup w (snd run)
  | None =>
      match ToolExecutor.buildRequest config tool args with
      | Throw error =>
          fst run = Throw (rethrown tool error) /\ added lookup w (snd run)
      | Ok built =>
          let rc := request_of tool built in
          exists k fin,
            (fin = [] \/ fin = [EvAttempt rc])
            /\ let sent := EvRequest rc :: retried config rc 0 k ++ fin in
               match fst run with
               | Ok response =>
                   added (lookup ++ sent
                            ++ (if ToolExecutor.is_get tool
                                   && (api_status response >=? 200)%Z
                                   && (api_status response <? 300)%Z
                                then [EvCacheSet key] else [])) w (snd run)
               | Throw _ => added (lookup ++ sent) w (snd run)
               end
      end
  end.
Proof.
  cbv zeta. destruct (ToolExecutor.is_get tool) eqn:Hget.
  - rewrite (execute_get _ _ _ _ _ Hget).
    destruct (cached_response w tool args) as [c |]; [done |].
    destruct (ToolExecutor.buildRequest config tool args) as [built | error]
      eqn:Hb.
    + rewrite (dispatch_valid _ _ _ _ _ _ Hb).
      destruct (request_world config backend (request_of tool built)
                  (looked_up tool args w)) as [_ (k & fin & Htr & Hfin)].
      exists k, fin. split; [done |].
      destruct (HttpClient.request _ _ _ _) as [[response | error] w'];
        simpl in Htr |- *; unfold added in *; simpl in Htr.
      * unfold cacheable. rewrite Hget. simpl.
        destruct ((status response >=? 200)%Z && (status response <? 300)%Z);
          simpl; rewrite Htr; same_trace.
      * rewrite Htr. same_trace.
    + by rewrite (dispatch_invalid _ _ _ _ _ _ _ Hb).
  - rewrite (execute_other _ _ _ _ _ Hget).
    unfold cached_response. rewrite Hget.
    rewrite <- (no_key_unless_get tool args Hget).
    destruct (ToolExecutor.buildRequest config tool args) as [built | error]
      eqn:Hb.
    + rewrite (dispatch_valid _ _ _ _ _ _ Hb).
      destruct (request_world config backend (request_of tool built) w)
        as [_ (k & fin & Htr & Hfin)].
      exists k, fin. split; [done |].
      destruct (HttpClient.request _ _ _ _) as [[response | error] w'];
        simpl in Htr |- *; unfold added in *.
      * unfold cacheable. rewrite Hget. simpl. rewrite Htr. same_trace.
      * rewrite Htr. same_trace.
    + rewrite (dispatch_invalid _ _ _ _ _ _ _ Hb). simpl. split; [done |].
      apply added_nil.
Qed.

(** C3, as stated, fails: the cache lookup comes before the validation.
    A call without the required [api_key], made once the entry of an
    earlier call has expired, fails the validation, and the lookup made
    before it has removed the expired entry from the cache. *)
Lemma lookup_precedes_validation :
  let w := elapse 400000 Samples.after_first_call in
  let run := ToolExecutor.execute Samples.defaults Samples.always_200
               Samples.getPetById Samples.args_id w in
  Cache.size (cache w) = 1%nat
  /\ fst run
     = Throw (Error "Failed to execute getPetById: Missing required parameters: api_key")
  /\ trace (snd run)
     = trace w ++ [EvCacheGet (fingerprint Samples.getPetById Samples.args_id)]
  /\ Cache.size (cache (snd run)) = 0%nat.
Proof. vm_compute. repeat split. Qed.

Section CachedCalls.
Variable config : Config.
Variable backend : Backend.

Implicit Types (tool : ApiTool.t) (args : gmap string Value) (w : World).

(** A GET whose fingerprint has a live entry: the entry is the result and
    the lookup is all that happens. *)
Lemma execute_hit tool args w entry :
  ToolExecutor.is_get tool = true ->
  Cache.cache (cache w) !! fingerprint tool args = Some entry ->
  (now w - Cache.timestamp entry <= Cache.ttl entry)%Z ->
  ToolExecutor.execute config backend tool args w
  = (Ok (Cache.data entry),
     mkWorld (now w) (cache w)
             (trace w ++ [EvCacheGet (fingerprint tool args)])).
Proof.
  intros Hget Hk Hlive. rewrite (execute_get _ _ _ _ _ Hget).
  unfold cached_response, looked_up.
  rewrite Hget, (get_live _ _ _ _ Hk Hlive). done.
Qed.

(** The first of two calls, when it returns a response with a status in
    [[200,300)]: the response is in the cache afterwards, and at most one
    request was issued. *)
Lemma execute_get_stores tool args w response :
  ToolExecutor.is_get tool = true ->
  let run := ToolExecutor.execute config backend tool args w in
  fst run = Ok response ->
  (200 <= api_status response < 300)%Z ->
  exists entry,
    Cache.cache (cache (snd run)) !! fingerprint tool args = Some entry
    /\ Cache.data entry = response
    /\ (cached_response w tool args = None ->
        Cache.timestamp entry = now (snd run)
        /\ Cache.ttl entry = Cache.defaultTTL (cache w))
    /\ (requests (trace (snd run)) <= requests (trace w) + 1)%nat
    /\ ((forall n rc, exists r l, backend n rc = mkReply (Answer r) l) ->
        (attempts (trace (snd run)) <= attempts (trace w) + 1)%nat).
Proof.
  intros Hget. cbv zeta. rewrite (execute_get _ _ _ _ _ Hget).
  destruct (cached_response w tool args) as [c |] eqn:Hc.
  - simpl. intros [= ->] _.
    unfold cached_response in Hc. rewrite Hget in Hc.
    apply get_Some_inv in Hc as (entry & Hk & Hd & _ & Hsame).
    exists entry. rewrite Hsame.
    split; [done |]. split; [done |]. split; [done |].
    count_events. split; [lia | intros _; lia].
  - destruct (ToolExecutor.buildRequest config tool args) as [built | error]
      eqn:Hb.
    + rewrite (dispatch_valid _ _ _ _ _ _ Hb).
      destruct (request_world config backend (request_of tool built)
                  (looked_up tool args w)) as [Hcache (k & fin & Htr & Hfin)].
      pose proof (request_answered config backend (request_of tool built)
                    (looked_up tool args w)) as Hone.
      destruct (HttpClient.request _ _ _ _) as [[r | error] w'];
        simpl in Hcache, Htr, Hone |- *; [| done].
      intros [= <-] Hs. simpl in Hs.
      assert (cacheable tool r = true) as ->.
      { unfold cacheable. rewrite Hget. simpl.
        apply andb_true_iff. split; [apply Z.geb_le | apply Z.ltb_lt]; lia. }
      simpl. rewrite Hcache. simpl. rewrite get_defaultTTL.
      eexists. split; [apply lookup_insert_eq |]. simpl.
      split; [done |]. split; [done |]. split.
      * unfold added in Htr. rewrite Htr. simpl. count_events.
        destruct Hfin as [-> | ->]; count_events; lia.
      * intros Hall. specialize (Hone Hall (fun _ => eq_refl)).
        revert Hone. count_events. lia.
    + rewrite (dispatch_invalid _ _ _ _ _ _ _ Hb). done.
Qed.

End CachedCalls.

(** C6. For a GET tool, when the first of two calls with the same
    arguments returns a response with a status in [[200,300)], that
    response is stored under the fingerprint (on a cache miss: at the time
    the call ends, with the default TTL), and the first call issued at
    most one request, which is one attempt on the wire when the remote side
    answers.  A second call made while the entry is within its TTL returns
    the same response after the cache lookup alone: it issues no request
    and puts nothing on the wire, so that the two calls issue at most one
    request in total. *)
Theorem second_call_served_from_cache
    (config : Config) (backend : Backend) (tool : ApiTool.t)
    (args : gmap string Value) (w : World) (d : Z) (response : ApiResponse) :
  ToolExecutor.is_get tool = true ->
  let run1 := ToolExecutor.execute config backend tool args w in
  let w1 := snd run1 in
  let key := fingerprint tool args in
  fst run1 = Ok response ->
  (200 <= api_status response < 300)%Z ->
  exists entry,
    Cache.cache (cache w1) !! key = Some entry
    /\ Cache.data entry = response
    /\ (cached_response w tool args = None ->
        Cache.timestamp entry = now w1
        /\ Cache.ttl entry = Cache.defaultTTL (cache w))
    /\ (requests (trace w1) <= requests (trace w) + 1)%nat
    /\ ((forall n rc, exists r l, backend n rc = mkReply (Answer r) l) ->
        (attempts (trace w1) <= attempts (trace w) + 1)%nat)
    /\ ((now w1 + d - Cache.timestamp entry <= Cache.ttl entry)%Z ->
        let run2 :=
          ToolExecutor.execute config backend tool args (elapse d w1) in
        fst run2 = Ok response
        /\ added [EvCacheGet key] (elapse d w1) (snd run2)
        /\ attempts (trace (snd run2)) = attempts (trace w1)
        /\ (requests (trace (snd run2)) <= requests (trace w) + 1)%nat).
Proof.
  intros Hget run1 w1 key Hok Hs.
  destruct (execute_get_stores config backend tool args w response Hget Hok Hs)
    as (entry & Hk & Hd & Hnew & Hreq & Hatt).
  exists entry. fold run1 w1 key in Hk, Hnew, Hreq, Hatt.
  split; [done |]. split; [done |]. split; [done |]. split; [done |].
  split; [done |].
  intros Hlive. cbv zeta.
  rewrite (execute_hit config backend tool args (elapse d w1) entry Hget Hk)
    by done.
  simpl. rewrite Hd. split; [done |]. split; [done |].
  count_events. split; lia.
Qed.

Lemma second_call_served_from_cache_witness :
  ToolExecutor.is_get Samples.getPetById = true
  /\ fst (ToolExecutor.execute Samples.defaults Samples.always_200
            Samples.getPetById Samples.args_id_key Samples.start)
     = Ok Samples.pet_7
  /\ (200 <= api_status Samples.pet_7 < 300)%Z
  /\ let run2 :=
       ToolExecutor.execute Samples.defaults Samples.always_200
         Samples.getPetById Samples.args_id_key
         (elapse 1000 Samples.after_first_call) in
     fst run2 = Ok Samples.pet_7
     /\ attempts (trace (snd run2)) = attempts (trace Samples.after_first_call)
     /\ (requests (trace (snd run2)) <= requests (trace Samples.start) + 1)%nat.
Proof.
  assert (ToolExecutor.is_get Samples.getPetById = true) as Hget
    by reflexivity.
  assert (fst (ToolExecutor.execute Samples.defaults Samples.always_200
                 Samples.getPetById Samples.args_id_key Samples.start)
          = Ok Samples.pet_7) as Hok by (vm_compute; reflexivity).
  assert (200 <= api_status Samples.pet_7 < 300)%Z as Hs by (simpl; lia).
  split; [exact Hget |]. split; [exact Hok |]. split; [exact Hs |].
  destruct (second_call_served_from_cache Samples.defaults Samples.always_200
              Samples.getPetById Samples.args_id_key Samples.start 1000
              Samples.pet_7 Hget Hok Hs)
    as (entry & _ & _ & Hnew & _ & _ & Hsecond).
  destruct (Hnew eq_refl) as [Hts Httl].
  destruct Hsecond as (H1 & _ & H2 & H3).
  - rewrite Hts, Httl. vm_compute. discriminate.
  - split; [exact H1 |]. split; [exact H2 | exact H3].
Defined.

(** A first response that is not in [[200,300)] is not stored: the second
    call sends a request of its own. *)
Example not_found_is_not_cached :
  let w1 := snd (ToolExecutor.execute Samples.defaults Samples.always_404
                   Samples.getPetById Samples.args_id_key Samples.start) in
  let run2 := ToolExecutor.execute Samples.defaults Samples.always_404
                Samples.getPetById Samples.args_id_key (elapse 1000 w1) in
  Cache.size (cache w1) = 0%nat /\ requests (trace (snd run2)) = 2%nat.
Proof. vm_compute. split; reflexivity. Qed.

(** ** OpenApiLoader and the round trip *)

Section RoundTripFacts.

Lemma app_cons (c : ascii) (a b : string) :
  String c a +:+ b = String c (a +:+ b).
Proof. reflexivity. Qed.

Lemma replace_skips (base pat repl s : string) :
  no_brace base = true ->
  replace (String "{" pat) repl (base +:+ s)
  = base +:+ replace (String "{" pat) repl s.
Proof.
  intros Hb. induction base as [| c base IH]; [done |].
  simpl in Hb. apply andb_true_iff in Hb as [Hc Hb].
  rewrite !app_cons. cbn [replace String.prefix].
  destruct (ascii_dec "{" c) as [<- | _]; [done |].
  by rewrite IH.
Qed.

Lemma match_tokens_skips (base s : string) :
  no_brace base = true ->
  match_tokens (base +:+ s) = match_tokens s.
Proof.
  intros Hb. unfold match_tokens. induction base as [| c base IH]; [done |].
  simpl in Hb. apply andb_true_iff in Hb as [Hc Hb].
  rewrite app_cons. cbn [match_tokens_from].
  apply negb_true_iff in Hc. rewrite Hc. by apply IH.
Qed.

End RoundTripFacts.

(** C7. A document whose only operation is [GET /pet/{id}], declaring the
    path parameter [id], yields a catalog of exactly one tool; with the
    arguments [{id: 7}] the request built for it has the URL
    [<base>/api/v3/pet/7], in which no [{token}] is left (the base URL
    holding no brace of its own). *)
Theorem single_get_round_trip
    (config : Config) (operationId summary description : option string)
    (param_description : option string) (param_required : option bool)
    (param_schema : option SchemaValidator.Schema)
    (components : list (string * OpenAPIV3.ParameterObject))
    (tools : gmap string ApiTool.t) :
  no_brace (petstoreApiBase config) = true ->
  let operation :=
    OpenAPIV3.mkOperation operationId summary description
      (Some [OpenAPIV3.Param
               (OpenAPIV3.mkParameter "id" param_description param_required
                                      "path" param_schema)])
      None in
  let spec :=
    OpenAPIV3.mkDocument
      (Some [("/pet/{id}",
              Some (OpenAPIV3.mkPathItem (Some operation) None None None None))])
      components in
  let catalog :=
    OpenApiLoader.apiTools
      (OpenApiLoader.generateToolsFromSpec (OpenApiLoader.mk (Some spec) tools))
  in
  size catalog = 1%nat
  /\ exists tool,
      catalog = {[ ApiTool.name tool := tool ]}
      /\ ApiTool.method tool = "get"
      /\ ApiTool.path tool = "/pet/{id}"
      /\ exists built,
          ToolExecutor.buildRequest config tool {[ "id" := VNum 7 ]} = Ok built
          /\ ToolExecutor.url built
             = petstoreApiBase config +:+ "/api/v3" +:+ "/pet/7"
          /\ match_tokens (ToolExecutor.url built) = [].
Proof.
  intros Hbase. cbv zeta.
  set (tool := ApiTool.mk
                 (OpenApiLoader.str_or operationId "get__pet__id_")
                 (OpenApiLoader.str_or summary
                    (OpenApiLoader.str_or description "GET /pet/{id}"))
                 "get" "/pet/{id}"
                 [ToolParameter.mk "id" param_description
                    (default false param_required)
                    (OpenApiLoader.str_or
                       (OpenApiLoader.schema_type param_schema) "string")
                    "path" param_schema]).
  assert (OpenApiLoader.apiTools
            (OpenApiLoader.generateToolsFromSpec
               (OpenApiLoader.mk
                  (Some (OpenAPIV3.mkDocument
                     (Some [("/pet/{id}",
                             Some (OpenAPIV3.mkPathItem
                                     (Some (OpenAPIV3.mkOperation operationId
                                              summary description
                                              (Some [OpenAPIV3.Param
                                                 (OpenAPIV3.mkParameter "id"
                                                    param_description
                                                    param_required "path"
                                                    param_schema)])
                                              None))
                                     None None None None))])
                     components)) tools))
          = {[ ApiTool.name tool := tool ]}) as ->.
  { reflexivity. }
  split; [apply map_size_singleton |].
  exists tool. split; [done |]. split; [done |]. split; [done |].
  assert (ToolExecutor.missingParams tool {[ "id" := VNum 7 ]} = []) as Hm.
  { subst tool. by destruct param_required as [[|] |]. }
  assert (fold_left (ToolExecutor.process_parameter {[ "id" := VNum 7 ]})
            (ApiTool.parameters tool)
            (ToolExecutor.mkBuilt
               (petstoreApiBase config +:+ "/api/v3" +:+ ApiTool.path tool) []
               [("Accept", VStr "application/json");
                ("Content-Type", VStr "application/json")] VUndefined)
          = ToolExecutor.mkBuilt
              (replace "{id}" "7"
                 (petstoreApiBase config +:+ "/api/v3" +:+ "/pet/{id}")) []
              [("Accept", VStr "application/json");
               ("Content-Type", VStr "application/json")] VUndefined) as Hfold.
  { reflexivity. }
  assert (replace "{id}" "7"
            (petstoreApiBase config +:+ "/api/v3" +:+ "/pet/{id}")
          = petstoreApiBase config +:+ "/api/v3" +:+ "/pet/7") as Hurl.
  { rewrite (replace_skips _ "id}" _ _ Hbase). reflexivity. }
  assert (match_tokens (petstoreApiBase config +:+ "/api/v3" +:+ "/pet/7")
          = []) as Htok.
  { by rewrite (match_tokens_skips _ _ Hbase). }
  unfold ToolExecutor.buildRequest. rewrite Hm. cbv zeta.
  change (0 <? length (@nil string))%nat with false. cbv iota.
  rewrite Hfold. cbn [ToolExecutor.url]. rewrite Hurl, Htok.
  eexists. split; [reflexivity |]. split; [reflexivity | exact Htok].
Qed.

Lemma single_get_round_trip_witness :
  no_brace (petstoreApiBase Samples.defaults) = true
  /\ let catalog :=
       OpenApiLoader.apiTools
         (OpenApiLoader.generateToolsFromSpec
            (OpenApiLoader.mk (Some Samples.pet_document) ∅)) in
     size catalog = 1%nat
     /\ exists tool,
         catalog = {[ ApiTool.name tool := tool ]}
         /\ ApiTool.method tool = "get"
         /\ ApiTool.path tool = "/pet/{id}"
         /\ exists built,
             ToolExecutor.buildRequest Samples.defaults tool Samples.args_7
             = Ok built
             /\ ToolExecutor.url built
                = "https://petstore3.swagger.io/api/v3/pet/7"
             /\ match_tokens (ToolExecutor.url built) = [].
Proof.
  split; [reflexivity |].
  exact (single_get_round_trip Samples.defaults
           (Some "getPetById") (Some "Find pet by ID") None
           (Some "ID of pet to return") (Some true)
           (Some (SchemaValidator.SchemaObject
                    (Samples.with_type "integer" Samples.no_facets)
                    None None None))
           [] ∅ eq_refl).
Defined.

(** The round trip through [execute]: the tool of the catalog, called with
    [{id: 7}] on a fresh cache, sends its request to [.../api/v3/pet/7]. *)
Example round_trip_request :
  match OpenApiLoader.getTool
          (OpenApiLoader.generateToolsFromSpec
             (OpenApiLoader.mk (Some Samples.pet_document) ∅)) "getPetById"
  with
  | Some tool =>
      omap (fun e => match e with
                     | EvRequest rc => Some (rq_method rc, rq_url rc)
                     | _ => None
                     end)
           (trace (snd (ToolExecutor.execute Samples.defaults
                          Samples.always_200 tool Samples.args_7
                          Samples.start)))
      = [("get", "https://petstore3.swagger.io/api/v3/pet/7")]
  | None => False
  end.
Proof. vm_compute. reflexivity. Qed.

(** * Further properties *)

(** ** Cache: store, read, delete, sweep *)

Section CacheOperations.
Context {T : Type}.
Implicit Types (c : Cache.t T) (key : string).

Lemma expired_later (entry : Cache.CacheEntry T) (t t' : Z) :
  (t <= t')%Z ->
  Cache.isExpired t entry = true -> Cache.isExpired t' entry = true.
Proof.
  unfold Cache.isExpired. intros Hle H. apply Z.gtb_gt in H.
  apply Z.gtb_gt. lia.
Qed.

Lemma get_value now key c :
  fst (Cache.get now key c)
  = match Cache.cache c !! key with
    | Some entry =>
        if Cache.isExpired now entry then None else Some (Cache.data entry)
    | None => None
    end.
Proof.
  unfold Cache.get. destruct (Cache.cache c !! key) as [entry |]; [| done].
  by destruct (Cache.isExpired now entry).
Qed.

Lemma cleanup_lookup now key c :
  Cache.cache (Cache.cleanup now c) !! key
  = match Cache.cache c !! key with
    | Some entry => if Cache.isExpired now entry then None else Some entry
    | None => None
    end.
Proof.
  unfold Cache.cleanup. simpl.
  destruct (Cache.cache c !! key) as [entry |] eqn:Hk.
  - destruct (Cache.isExpired now entry) eqn:He.
    + apply map_lookup_filter_None. right. intros e Hk' Hlive.
      rewrite Hk in Hk'. injection Hk' as <-. simpl in Hlive.
      by rewrite He in Hlive.
    + apply map_lookup_filter_Some. split; [done |]. simpl. by rewrite He.
  - apply map_lookup_filter_None. by left.
Qed.

End CacheOperations.

(** X1. Store, then read: [get(key)] after [set(key, data, ttl)] returns
    the data and leaves the cache as it is while the time elapsed is at
    most the entry's TTL (the given one, or the default when none or [0] is
    given); after that it returns [null] and the cache is the one before
    the [set] without the key. *)
Theorem set_then_get {T : Type} (c : Cache.t T) (key : string) (data : T)
    (ttl : option Z) (t0 t1 : Z) :
  let c1 := Cache.set t0 key data ttl c in
  Cache.get t1 key c1
  = if (t1 - t0 >? Cache.ttl_or_default ttl (Cache.defaultTTL c))%Z
    then (None, Cache.mk (delete key (Cache.cache c)) (Cache.defaultTTL c))
    else (Some data, c1).
Proof.
  cbv zeta. unfold Cache.get. rewrite set_lookup. unfold Cache.isExpired.
  simpl. destruct (_ >? _)%Z; [| done].
  by rewrite delete_insert_eq.
Qed.

(** X2. [set] touches one key: what [get] returns for any other key is
    unchanged, and the size grows by one exactly when the key had no entry
    (an entry that has expired but was not yet read or swept is one). *)
Theorem set_other_keys {T : Type} (c : Cache.t T) (key key' : string)
    (data : T) (ttl : option Z) (t0 t1 : Z) :
  let c1 := Cache.set t0 key data ttl c in
  (key <> key' -> fst (Cache.get t1 key' c1) = fst (Cache.get t1 key' c))
  /\ Cache.size c1
     = (if Cache.cache c !! key is Some _ then Cache.size c
        else S (Cache.size c)).
Proof.
  cbv zeta. split.
  - intros Hne. rewrite !get_value. unfold Cache.set. simpl.
    by rewrite lookup_insert_ne.
  - unfold Cache.size, Cache.set. simpl.
    destruct (Cache.cache c !! key) as [entry |] eqn:Hk.
    + by apply map_size_insert_Some.
    + by apply map_size_insert_None.
Qed.

(** X3. The sweep removes exactly the entries expired at its time: the
    others stay as they are, no read made at that time or later returns
    anything else than it would have without the sweep, and the size does
    not grow. *)
Theorem cleanup_removes_expired {T : Type} (c : Cache.t T) (now : Z) :
  let c1 := Cache.cleanup now c in
  (forall key,
      Cache.cache c1 !! key
      = match Cache.cache c !! key with
        | Some entry => if Cache.isExpired now entry then None else Some entry
        | None => None
        end)
  /\ (forall key t, (now <= t)%Z ->
                    fst (Cache.get t key c1) = fst (Cache.get t key c))
  /\ (Cache.size c1 <= Cache.size c)%nat
  /\ Cache.defaultTTL c1 = Cache.defaultTTL c.
Proof.
  cbv zeta. split; [intros; apply cleanup_lookup |]. split; [| split; [| done]].
  - intros key t Hle. rewrite !get_value, cleanup_lookup.
    destruct (Cache.cache c !! key) as [entry |]; [| done].
    destruct (Cache.isExpired now entry) eqn:He; [| done].
    by rewrite (expired_later entry now t Hle He).
  - unfold Cache.size, Cache.cleanup. simpl.
    apply map_subseteq_size, map_filter_subseteq.
Qed.

(** X4. Reading an expired entry removes it from the count: the size
    drops by exactly one, whereas a read that hits or finds no entry leaves
    the cache as it is. *)
Theorem get_and_size {T : Type} (c : Cache.t T) (key : string) (now : Z) :
  let c1 := snd (Cache.get now key c) in
  match Cache.cache c !! key with
  | Some entry =>
      if Cache.isExpired now entry
      then S (Cache.size c1) = Cache.size c /\ Cache.cache c1 !! key = None
      else c1 = c
  | None => c1 = c
  end.
Proof.
  cbv zeta. unfold Cache.get.
  destruct (Cache.cache c !! key) as [entry |] eqn:Hk; [| done].
  destruct (Cache.isExpired now entry); [| done]. simpl. split.
  - unfold Cache.size. simpl. symmetry.
    rewrite <- (insert_delete_id (Cache.cache c) key entry Hk) at 1.
    apply map_size_insert_None, lookup_delete_eq.
  - apply lookup_delete_eq.
Qed.

(** X5. [delete] reports whether the key had an entry, expired or not:
    for an expired entry it returns [true] where [has] returns [false].
    Afterwards the key is absent, [get] and [has] miss, and the other
    keys are untouched. *)
Theorem delete_then_read {T : Type} (c : Cache.t T) (key : string) (now : Z) :
  let c1 := snd (Cache.delete key c) in
  fst (Cache.delete key c) = bool_decide (is_Some (Cache.cache c !! key))
  /\ (forall entry, Cache.cache c !! key = Some entry ->
                    Cache.isExpired now entry = true ->
                    fst (Cache.delete key c) = true
                    /\ fst (Cache.has now key c) = false)
  /\ Cache.get now key c1 = (None, c1)
  /\ fst (Cache.has now key c1) = false
  /\ (forall key', key <> key' ->
                   Cache.cache c1 !! key' = Cache.cache c !! key').
Proof.
  cbv zeta. split; [done |]. split; [| split; [| split]].
  - intros entry Hk He. unfold Cache.delete, Cache.has, Cache.get.
    rewrite Hk, He. simpl. done.
  - unfold Cache.get, Cache.delete. simpl. by rewrite lookup_delete_eq.
  - unfold Cache.has, Cache.get, Cache.delete. simpl.
    by rewrite lookup_delete_eq.
  - intros key' Hne. unfold Cache.delete. simpl. by apply lookup_delete_ne.
Qed.

(** ** HttpClient: bounds, exhaustion, recovery *)

Section RetryFacts.
Variable config : Config.
Variable backend : Backend.

#[local] Abbreviation client_request := (HttpClient.client_request backend).
#[local] Abbreviation shouldRetry := (HttpClient.shouldRetry config).
#[local] Abbreviation request_loop := (HttpClient.request_loop config backend).
#[local] Abbreviation request := (HttpClient.request config backend).

Lemma delays_app (a b : list Event) : delays (a ++ b) = delays a ++ delays b.
Proof. unfold delays. apply omap_app. Qed.

Lemma total_delay_app (a b : list Event) :
  total_delay (a ++ b) = (total_delay a + total_delay b)%Z.
Proof.
  unfold total_delay. rewrite delays_app.
  induction (delays a) as [| x l IH]; simpl; [done | lia].
Qed.

Lemma total_delay_retried rc k :
  total_delay (retried config rc 0 k)
  = (retryDelay config * (2 ^ Z.of_nat k - 1))%Z.
Proof.
  unfold total_delay. rewrite delays_retried.
  induction k as [| k IH]; [simpl; lia |].
  rewrite seq_S, map_app, foldr_app. cbn [map foldr].
  assert (forall (l : list Z) (a : Z),
             foldr Z.add a l = (foldr Z.add 0 l + a)%Z) as Hacc.
  { induction l as [| x l IHl]; intros a; simpl; [lia |]. rewrite IHl. lia. }
  rewrite Hacc, IH. rewrite Nat.add_0_l, Z.add_0_l, Z.add_0_r.
  rewrite Nat2Z.inj_succ, Z.pow_succ_r by lia. lia.
Qed.

(** A transient reply is rejected and, below [maxRetries], retried. *)
Lemma client_request_transient rc w :
  transient rc (backend (attempts (trace w)) rc) = true ->
  client_request rc w
  = (Throw (rejection (backend (attempts (trace w)) rc)),
     mkWorld (now w + Z.of_nat (latency (backend (attempts (trace w)) rc)))
             (cache w) (trace w ++ [EvAttempt rc]))
  /\ forall attempt,
      shouldRetry (rejection (backend (attempts (trace w)) rc)) attempt
      = negb (attempt >=? maxRetries config)%Z.
Proof.
  unfold transient, rejection, HttpClient.client_request,
    HttpClient.shouldRetry.
  destruct (outcome _) as [msg | r]; simpl.
  - intros _. split; [done |]. intros attempt.
    by destruct (attempt >=? maxRetries config)%Z.
  - intros H. apply andb_true_iff in H as [H Hhi].
    apply andb_true_iff in H as [Hrej Hlo]. apply negb_true_iff in Hrej.
    rewrite Hrej. split; [done |]. intros attempt.
    destruct (attempt >=? maxRetries config)%Z; [done |]. simpl.
    apply andb_true_iff. split; [| done]. apply Z.geb_le. by apply Z.leb_le.
Qed.

(** [j] transient replies in a row, with attempts left for each: the loop
    retries [j] times. *)
Lemma request_loop_retries rc j :
  forall fuel attempt lastError w,
    (forall i, (i < j)%nat ->
               transient rc (backend (attempts (trace w) + i) rc) = true) ->
    (attempt + Z.of_nat j <= maxRetries config)%Z ->
    exists lastError' w',
      request_loop (j + fuel) attempt lastError rc w
      = request_loop fuel (attempt + Z.of_nat j)%Z lastError' rc w'
      /\ added (retried config rc attempt j) w w'
      /\ cache w' = cache w
      /\ (j = 0%nat -> lastError' = lastError).
Proof.
  induction j as [| j IH]; intros fuel attempt lastError w Htr Hle.
  - exists lastError, w. rewrite Z.add_0_r. split; [done |].
    split; [apply added_nil | done].
  - change (S j + fuel)%nat with (S (j + fuel)).
    rewrite request_loop_step by lia.
    pose proof (Htr 0%nat ltac:(lia)) as H0. rewrite Nat.add_0_r in H0.
    destruct (client_request_transient rc w H0) as [-> Hretry].
    rewrite Hretry.
    destruct (Z.geb_spec attempt (maxRetries config)) as [? | _]; [lia |].
    simpl.
    match goal with
    | |- context [request_loop (j + fuel) (attempt + 1)%Z ?l rc ?w1] =>
        destruct (IH fuel (attempt + 1)%Z l w1)
          as (last' & w' & Heq & Hadd & Hc & _)
    end.
    + intros i Hi. simpl. rewrite !attempts_app, !attempts_cons, attempts_nil.
      simpl.
      replace (attempts (trace w) + 1 + 0 + i)%nat
        with (attempts (trace w) + S i)%nat by lia.
      apply Htr. lia.
    + lia.
    + rewrite Heq. exists last', w'. split; [f_equal; lia |].
      split; [| split; [exact Hc | done]].
      rewrite retried_S. unfold added in *. rewrite Hadd. simpl.
      by rewrite <- !app_assoc.
Qed.

(** The loop makes at most [fuel] attempts, and waits at most once for
    every attempt index below [maxRetries]. *)
Lemma request_loop_bound rc fuel :
  forall attempt lastError w,
    let w' := snd (request_loop fuel attempt lastError rc w) in
    (attempts (trace w') <= attempts (trace w) + fuel)%nat
    /\ (length (delays (trace w'))
        <= length (delays (trace w))
           + Z.to_nat (maxRetries config - attempt))%nat.
Proof.
  induction fuel as [| fuel IH]; intros attempt lastError w; cbv zeta.
  { simpl. lia. }
  destruct (Z.leb_spec attempt (maxRetries config)) as [Hle | Hgt].
  - rewrite request_loop_step by done.
    pose proof (client_request_world backend rc w) as [Htr _].
    destruct (client_request rc w) as [[r | error] w1]; simpl in Htr.
    + simpl. unfold added in Htr.
      rewrite Htr, attempts_app, delays_app, length_app. simpl.
      rewrite attempts_cons, attempts_nil. simpl. lia.
    + destruct (shouldRetry error attempt) eqn:Hretry.
      * apply shouldRetry_iff in Hretry as [Hlt _].
        set (wd := snd (HttpClient.delay
                          (retryDelay config * 2 ^ attempt)%Z w1)).
        assert (trace wd
                = trace w ++ [EvAttempt rc]
                    ++ [EvDelay (retryDelay config * 2 ^ attempt)%Z]) as Hwd.
        { unfold added in Htr. subst wd. simpl. rewrite Htr.
          by rewrite <- app_assoc. }
        specialize (IH (attempt + 1)%Z (Some error) wd).
        cbv zeta in IH. destruct IH as [IHa IHd]. rewrite Hwd in IHa, IHd.
        rewrite !attempts_app, !attempts_cons, attempts_nil in IHa.
        rewrite !delays_app, !length_app in IHd. simpl in IHa, IHd.
        split; lia.
      * simpl. unfold added in Htr.
        rewrite Htr, attempts_app, delays_app, length_app. simpl.
        rewrite attempts_cons, attempts_nil. simpl. lia.
  - cbn [HttpClient.request_loop].
    destruct (Z.leb_spec attempt (maxRetries config)); [lia |]. simpl. lia.
Qed.

End RetryFacts.

(** X6. Whatever the remote side does, one request puts at most
    [maxRetries + 1] attempts on the wire (none when [maxRetries] is
    negative) and waits at most [maxRetries] times; it counts as one
    request and does not touch the cache. *)
Theorem request_attempts_bounded
    (config : Config) (backend : Backend) (rc : AxiosRequestConfig)
    (w : World) :
  let w' := snd (HttpClient.request config backend rc w) in
  (attempts (trace w')
   <= attempts (trace w) + Z.to_nat (maxRetries config + 1))%nat
  /\ (length (delays (trace w'))
      <= length (delays (trace w)) + Z.to_nat (maxRetries config))%nat
  /\ requests (trace w') = S (requests (trace w))
  /\ cache w' = cache w.
Proof.
  cbv zeta.
  destruct (request_world config backend rc w) as [Hc (k & fin & Htr & Hfin)].
  unfold HttpClient.request, mbind, M_bind in *. simpl in *.
  pose proof (request_loop_bound config backend rc
                (Z.to_nat (maxRetries config + 1)) 0%Z None
                (mkWorld (now w) (cache w) (trace w ++ [EvRequest rc])))
    as [Ha Hd].
  cbv zeta in Ha, Hd. simpl in Ha, Hd.
  rewrite attempts_app, attempts_cons, attempts_nil in Ha.
  rewrite delays_app, length_app, Z.sub_0_r in Hd. simpl in Ha, Hd.
  split; [lia |]. split; [lia |]. split; [| done].
  unfold added in Htr. rewrite Htr. count_events.
  destruct Hfin as [-> | ->]; count_events; lia.
Qed.

(** X7. When every reply is transient (no response, or a rejected status
    in [[500,600)]), a request makes exactly [maxRetries + 1] attempts,
    throws the rejection of the last one, and has waited
    [retryDelay * (2 ^ maxRetries - 1)] milliseconds in its delays. *)
Theorem request_exhausts_retries
    (config : Config) (backend : Backend) (rc : AxiosRequestConfig)
    (w : World) :
  (0 <= maxRetries config)%Z ->
  (forall n, transient rc (backend n rc) = true) ->
  let run := HttpClient.request config backend rc w in
  let tries := Z.to_nat (maxRetries config) in
  fst run = Throw (rejection (backend (attempts (trace w) + tries)%nat rc))
  /\ added (EvRequest rc :: retried config rc 0 tries ++ [EvAttempt rc])
           w (snd run)
  /\ total_delay (EvRequest rc :: retried config rc 0 tries ++ [EvAttempt rc])
     = (retryDelay config * (2 ^ maxRetries config - 1))%Z.
Proof.
  intros Hmax Hall. cbv zeta.
  unfold HttpClient.request, mbind, M_bind. simpl.
  set (w0 := mkWorld (now w) (cache w) (trace w ++ [EvRequest rc])).
  replace (Z.to_nat (maxRetries config + 1))
    with (Z.to_nat (maxRetries config) + 1)%nat by lia.
  destruct (request_loop_retries config backend rc
              (Z.to_nat (maxRetries config)) 1%nat 0%Z None w0)
    as (last' & w1 & -> & Hadd & Hc & _); [intros; apply Hall | lia |].
  rewrite request_loop_step by lia.
  assert (attempts (trace w1)
          = (attempts (trace w) + Z.to_nat (maxRetries config))%nat) as Hn.
  { unfold added in Hadd. rewrite Hadd. subst w0. simpl.
    rewrite !attempts_app, attempts_retried, attempts_cons, attempts_nil.
    simpl. lia. }
  destruct (client_request_transient config backend rc w1 (Hall _))
    as [-> Hretry].
  rewrite Hretry, Hn.
  destruct (Z.geb_spec (0 + Z.of_nat (Z.to_nat (maxRetries config)))
              (maxRetries config)) as [_ | ?]; [| lia].
  simpl. split; [done |]. split.
  - unfold added in *. rewrite Hadd. subst w0. simpl.
    by rewrite <- !app_assoc.
  - change (EvRequest rc :: ?l) with ([EvRequest rc] ++ l).
    rewrite !total_delay_app, total_delay_retried.
    unfold total_delay. simpl. rewrite Z2Nat.id by lia. lia.
Qed.

(** X8. Recovery: when the first [j] replies are transient, with
    [j <= maxRetries], and the next one is a response with an accepted
    status, the request returns that response after [j + 1] attempts and
    [j] delays. *)
Theorem request_recovers
    (config : Config) (backend : Backend) (rc : AxiosRequestConfig)
    (w : World) (j : nat) (r : AxiosResponse) (l : nat) :
  (Z.of_nat j <= maxRetries config)%Z ->
  (forall i, (i < j)%nat ->
             transient rc (backend (attempts (trace w) + i)%nat rc) = true) ->
  backend (attempts (trace w) + j)%nat rc = mkReply (Answer r) l ->
  default HttpClient.validateStatus_default (rq_validateStatus rc) (status r)
  = true ->
  let run := HttpClient.request config backend rc w in
  fst run = Ok r
  /\ added (EvRequest rc :: retried config rc 0 j ++ [EvAttempt rc])
           w (snd run).
Proof.
  intros Hj Htr Hb Hacc. cbv zeta.
  unfold HttpClient.request, mbind, M_bind. simpl.
  set (w0 := mkWorld (now w) (cache w) (trace w ++ [EvRequest rc])).
  replace (Z.to_nat (maxRetries config + 1))
    with (j + S (Z.to_nat (maxRetries config) - j))%nat by lia.
  destruct (request_loop_retries config backend rc j
              (S (Z.to_nat (maxRetries config) - j)) 0%Z None w0)
    as (last' & w1 & -> & Hadd & Hc & _).
  { intros i Hi. subst w0. simpl.
    rewrite attempts_app, attempts_cons, attempts_nil. simpl.
    rewrite Nat.add_0_r. by apply Htr. }
  { lia. }
  rewrite request_loop_step by lia.
  assert (attempts (trace w1) = (attempts (trace w) + j)%nat) as Hn.
  { unfold added in Hadd. rewrite Hadd. subst w0. simpl.
    rewrite !attempts_app, attempts_retried, attempts_cons, attempts_nil.
    simpl. lia. }
  rewrite (client_request_answer backend rc w1 r l) by (by rewrite Hn).
  rewrite Hacc. simpl. split; [done |].
  unfold added in *. rewrite Hadd. subst w0. simpl. by rewrite <- !app_assoc.
Qed.

Lemma request_exhausts_retries_witness :
  let run := HttpClient.request Samples.defaults Samples.unreachable
               Cases.spec_request Samples.start in
  fst run = Throw (AxiosError "Network Error" None)
  /\ attempts (trace (snd run)) = 4%nat
  /\ total_delay (trace (snd run)) = 7000%Z.
Proof.
  assert (0 <= maxRetries Samples.defaults)%Z as Hmax by (simpl; lia).
  assert (forall n, transient Cases.spec_request
                      (Samples.unreachable n Cases.spec_request) = true)
    as Hall by (intros n; reflexivity).
  destruct (request_exhausts_retries Samples.defaults Samples.unreachable
              Cases.spec_request Samples.start Hmax Hall)
    as (Hres & Hadd & Htotal).
  split; [exact Hres |]. unfold added in Hadd. rewrite Hadd.
  split; [reflexivity | exact Htotal].
Defined.

Lemma request_recovers_witness :
  let run := HttpClient.request Samples.defaults Cases.flaky
               Cases.spec_request Samples.start in
  fst run = Ok (mkResponse 200 "OK" [] (VObj [("id", VNum 7)]))
  /\ attempts (trace (snd run)) = 3%nat
  /\ delays (trace (snd run)) = [1000; 2000]%Z.
Proof.
  assert (Z.of_nat 2 <= maxRetries Samples.defaults)%Z as Hj by (simpl; lia).
  assert (forall i, (i < 2)%nat ->
                    transient Cases.spec_request
                      (Cases.flaky (attempts (trace Samples.start) + i)%nat
                                   Cases.spec_request) = true) as Htr.
  { intros i Hi. destruct i as [| [| i]]; [reflexivity | reflexivity | lia]. }
  destruct (request_recovers Samples.defaults Cases.flaky Cases.spec_request
              Samples.start 2
              (mkResponse 200 "OK" [] (VObj [("id", VNum 7)])) 5
              Hj Htr eq_refl eq_refl)
    as (Hres & Hadd).
  split; [exact Hres |]. unfold added in Hadd. rewrite Hadd.
  split; reflexivity.
Defined.

(** X9. With a negative [maxRetries] the loop body never runs: a request
    makes no attempt and throws [undefined]; [execute], for arguments that
    pass and no cache hit, then fails with a TypeError raised in its own
    [catch] block, having put nothing on the wire. *)
Theorem negative_maxRetries
    (config : Config) (backend : Backend) (rc : AxiosRequestConfig)
    (w : World) :
  (maxRetries config < 0)%Z ->
  HttpClient.request config backend rc w
  = (Throw ThrownUndefined,
     mkWorld (now w) (cache w) (trace w ++ [EvRequest rc]))
  /\ forall tool args built,
      ToolExecutor.buildRequest config tool args = Ok built ->
      cached_response w tool args = None ->
      let run := ToolExecutor.execute config backend tool args w in
      fst run
      = Throw (TypeError
                 "Cannot read properties of undefined (reading 'message')")
      /\ attempts (trace (snd run)) = attempts (trace w).
Proof.
  intros Hneg.
  assert (forall rc' w',
             HttpClient.request config backend rc' w'
             = (Throw ThrownUndefined,
                mkWorld (now w') (cache w') (trace w' ++ [EvRequest rc'])))
    as Hreq.
  { intros rc' w'. unfold HttpClient.request, mbind, M_bind. simpl.
    by replace (Z.to_nat (maxRetries config + 1)) with 0%nat by lia. }
  split; [apply Hreq |].
  intros tool args built Hb Hmiss. cbv zeta.
  destruct (ToolExecutor.is_get tool) eqn:Hget.
  - rewrite (execute_get _ _ _ _ _ Hget), Hmiss.
    rewrite (dispatch_valid _ _ _ _ _ _ Hb), Hreq. simpl.
    split; [done |]. count_events. lia.
  - rewrite (execute_other _ _ _ _ _ Hget).
    rewrite <- (no_key_unless_get tool args Hget).
    rewrite (dispatch_valid _ _ _ _ _ _ Hb), Hreq. simpl.
    split; [done |]. count_events. lia.
Qed.

Lemma negative_maxRetries_witness :
  (maxRetries Cases.no_attempts < 0)%Z
  /\ HttpClient.request Cases.no_attempts Samples.always_200
       Cases.spec_request Samples.start
     = (Throw ThrownUndefined,
        mkWorld 0 (Cache.new (Some 300000%Z)) [EvRequest Cases.spec_request]).
Proof.
  assert (maxRetries Cases.no_attempts < 0)%Z as Hneg by (simpl; lia).
  split; [exact Hneg |].
  exact (proj1 (negative_maxRetries Cases.no_attempts Samples.always_200
                  Cases.spec_request Samples.start Hneg)).
Defined.

(** ** SchemaValidator: what is accepted, and what the errors say *)

Section SchemaInduction.
Import SchemaValidator.


End SchemaInduction.

Section AcceptanceFacts.
Import SchemaValidator.

Lemma andThen_ok (a b : Result unit) :
  andThen a b = Ok tt <-> a = Ok tt /\ b = Ok tt.
Proof.
  destruct a as [[] | e]; simpl; [| split; [done | by intros [? _]]].
  split; [done | by intros [_ ?]].
Qed.

Lemma if_throw_ok (c : bool) (e : Exn) :
  (if c then Throw e else ok) = Ok tt <-> c = false.
Proof. destruct c; split; done. Qed.



End AcceptanceFacts.





Section StructureFacts.
Import SchemaValidator.

Lemma forEach_item_ok (v : Value -> string -> Result unit)
    (paramName : string) (xs : list Value) :
  forall index,
    forEach_item v paramName index xs = Ok tt
    <-> forall i x, xs !! i = Some x ->
                    v x (item_name paramName (index + i)) = Ok tt.
Proof.
  induction xs as [| x0 xs IH]; intros index.
  - split; [intros _ i x H; by rewrite lookup_nil in H | done].
  - cbn [forEach_item]. rewrite andThen_ok, IH. split.
    + intros [H0 Hrest] i x Hi. destruct i as [| i]; simpl in Hi.
      * injection Hi as <-. by rewrite Nat.add_0_r.
      * specialize (Hrest i x Hi).
        by replace (index + S i)%nat with (S index + i)%nat by lia.
    + intros H. split.
      * specialize (H 0%nat x0 eq_refl). by rewrite Nat.add_0_r in H.
      * intros i x Hi. specialize (H (S i) x Hi).
        by replace (index + S i)%nat with (S index + i)%nat in H by lia.
Qed.

Lemma validateArray_ok (v : option (Value -> string -> Result unit))
    (xs : list Value) (f : Facets) (paramName : string) :
  validateArray v xs f paramName = Ok tt
  <-> at_least (minItems f) (Z.of_nat (length xs)) = true
      /\ at_most (maxItems f) (Z.of_nat (length xs)) = true
      /\ forall v', v = Some v' ->
                    forall i x, xs !! i = Some x ->
                                v' x (item_name paramName i) = Ok tt.
Proof.
  unfold validateArray, at_least, at_most. rewrite !andThen_ok.
  assert ((match v with
           | Some v' => forEach_item v' paramName 0 xs
           | None => ok
           end) = Ok tt
          <-> forall v', v = Some v' ->
                         forall i x, xs !! i = Some x ->
                                     v' x (item_name paramName i) = Ok tt)
    as ->.
  { destruct v as [v' |].
    - rewrite forEach_item_ok. simpl. split.
      + intros H v'' [= <-]. exact H.
      + intros H. by apply H.
    - split; [by intros _ v' [=] | done]. }
  destruct (minItems f) as [lo |], (maxItems f) as [hi |];
    rewrite ?if_throw_ok, ?Z.ltb_ge, ?Z.gtb_ltb, ?Z.ltb_ge, ?Z.leb_le;
    unfold ok; intuition lia.
Qed.







End StructureFacts.

(** X12. For a schema of type [array], an array is accepted exactly when
    its length is between [minItems] and [maxItems] and, where the schema
    has [items], every element is accepted by that schema, element [i]
    being validated under the name [<name>[i]]. *)
Theorem validate_array_accepts
    (f : SchemaValidator.Facets) (items : option SchemaValidator.Schema)
    (properties : option (list (string * SchemaValidator.Schema)))
    (ap : option (bool + SchemaValidator.Schema)) (xs : list Value)
    (paramName : string) :
  SchemaValidator.type f = Some "array" ->
  SchemaValidator.validate
    (SchemaValidator.SchemaObject f items properties ap) (VArr xs) paramName
  = Ok tt
  <-> at_least (SchemaValidator.minItems f) (Z.of_nat (length xs)) = true
      /\ at_most (SchemaValidator.maxItems f) (Z.of_nat (length xs)) = true
      /\ forall s, items = Some s ->
                   forall i x, xs !! i = Some x ->
                               SchemaValidator.validate s x
                                 (item_name paramName i) = Ok tt.
Proof.
  intros Ht. cbn [SchemaValidator.validate]. rewrite Ht.
  change (match Some "array" with Some "array" => ?a | _ => _ end) with a.
  rewrite validateArray_ok.
  destruct items as [s |]; split; intros (Hlo & Hhi & H);
    (split; [done |]; split; [done |]).
  - intros s' [= <-]. by apply H.
  - intros v' [= <-]. by apply H.
  - by intros s' [=].
  - by intros v' [=].
Qed.

Lemma validate_array_accepts_witness :
  SchemaValidator.validate Cases.schema_integers (VArr [VNum 1; VNum 2]) "ids"
  = Ok tt.
Proof.
  apply (validate_array_accepts
           (Samples.with_type "array" Samples.no_facets)
           (Some (SchemaValidator.SchemaObject
                    (Samples.with_type "integer" Samples.no_facets)
                    None None None))
           None None [VNum 1; VNum 2] "ids" eq_refl).
  split; [reflexivity |]. split; [reflexivity |].
  intros s [= <-] i x Hi.
  destruct i as [| [| i]]; simpl in Hi; [| | discriminate Hi];
    injection Hi as <-; vm_compute; reflexivity.
Defined.



Section MessageFacts.
Import SchemaValidator.




Lemma names_ok (n : string) : names_parameter ok n.
Proof. done. Qed.



End MessageFacts.


Section NamingFacts.
Import SchemaValidator.








End NamingFacts.



(** ** OpenApiLoader: the catalog *)

Section CatalogFacts.
Import OpenAPIV3.

#[local] Abbreviation add_tool :=
  (fun (m : gmap string ApiTool.t) (tool : ApiTool.t) =>
     <[ApiTool.name tool := tool]> m).

Lemma add_methods_fold spec path pathItem (ms : list string) :
  forall m,
    fold_left (OpenApiLoader.add_method spec path pathItem) ms m
    = fold_left add_tool
        (omap (fun method =>
                 match OpenApiLoader.operation_of pathItem method with
                 | Some operation =>
                     OpenApiLoader.createToolFromOperation spec path method
                                                           operation
                 | None => None
                 end) ms) m.
Proof.
  induction ms as [| method ms IH]; intros m; [done |].
  cbn [fold_left omap list_omap]. rewrite IH.
  unfold OpenApiLoader.add_method.
  destruct (OpenApiLoader.operation_of pathItem method) as [operation |];
    [| done].
  by destruct (OpenApiLoader.createToolFromOperation _ _ _ _).
Qed.

Lemma add_paths_fold spec (ps : list (string * option PathItemObject)) :
  forall m,
    fold_left (OpenApiLoader.add_path spec) ps m
    = fold_left add_tool (derived_tools spec ps) m.
Proof.
  induction ps as [| [path [pathItem |]] ps IH]; intros m; [done | |].
  - cbn [fold_left derived_tools flat_map]. rewrite fold_left_app.
    rewrite IH. f_equal. unfold OpenApiLoader.add_path.
    apply add_methods_fold.
  - cbn [fold_left derived_tools flat_map]. apply IH.
Qed.

Lemma add_tools_lookup (tools : list ApiTool.t) (k : string) :
  forall m,
    fold_left add_tool tools m !! k
    = match last (filter (fun t => ApiTool.name t = k) tools) with
      | Some t => Some t
      | None => m !! k
      end.
Proof.
  induction tools as [| t tools IH]; intros m; [done |].
  cbn [fold_left]. rewrite IH, filter_cons.
  destruct (decide (ApiTool.name t = k)) as [Hk | Hk].
  - rewrite last_cons. destruct (last (filter _ tools)); [done |].
    by rewrite <- Hk, lookup_insert_eq.
  - destruct (last (filter _ tools)); [done |]. by rewrite lookup_insert_ne.
Qed.

Lemma add_tools_size (tools : list ApiTool.t) :
  forall m, (size (fold_left add_tool tools m) <= size m + length tools)%nat.
Proof.
  induction tools as [| t tools IH]; intros m; simpl; [lia |].
  etrans; [apply IH |].
  destruct (m !! ApiTool.name t) eqn:E.
  - rewrite map_size_insert_Some; [lia | done].
  - rewrite map_size_insert_None by done. lia.
Qed.

End CatalogFacts.

(** X15. The catalog built from a document holds, under each name, the
    last tool of that name among those derived from the operations (paths
    in document order, methods in the order get, post, put, delete,
    patch): a later operation with the same name replaces an earlier one.
    Every tool is stored under its own name, the catalog has at most one
    tool per operation, and nothing of the catalog before the build is
    left. *)
Theorem catalog_holds_last_of_each_name
    (ps : list (string * option OpenAPIV3.PathItemObject))
    (components : list (string * OpenAPIV3.ParameterObject))
    (before : gmap string ApiTool.t) :
  let spec := OpenAPIV3.mkDocument (Some ps) components in
  let catalog :=
    OpenApiLoader.apiTools
      (OpenApiLoader.generateToolsFromSpec
         (OpenApiLoader.mk (Some spec) before)) in
  (forall k,
      catalog !! k
      = last (filter (fun t => ApiTool.name t = k) (derived_tools spec ps)))
  /\ (forall k t, catalog !! k = Some t -> ApiTool.name t = k)
  /\ (size catalog <= length (derived_tools spec ps))%nat.
Proof.
  cbv zeta. unfold OpenApiLoader.generateToolsFromSpec. simpl.
  rewrite add_paths_fold.
  assert (forall k,
             fold_left (fun m tool => <[ApiTool.name tool := tool]> m)
               (derived_tools (OpenAPIV3.mkDocument (Some ps) components) ps)
               (∅ : gmap string ApiTool.t) !! k
             = last (filter (fun t => ApiTool.name t = k)
                       (derived_tools
                          (OpenAPIV3.mkDocument (Some ps) components) ps)))
    as Hlookup.
  { intros k. rewrite add_tools_lookup. by destruct (last _). }
  split; [exact Hlookup |]. split.
  - intros k t Hk. rewrite Hlookup in Hk.
    apply last_Some_elem_of, list_elem_of_filter in Hk. by destruct Hk.
  - etrans; [apply add_tools_size |]. by rewrite map_size_empty.
Qed.

Section NameFacts.


Lemma length_app (a b : string) :
  String.length (a +:+ b) = (String.length a + String.length b)%nat.
Proof.
  induction a as [| c a IH]; [done |].
  rewrite app_cons. cbn [String.length]. by rewrite IH.
Qed.


End NameFacts.





(** ** ToolExecutor: the request that is built *)

Section BuildFacts.

Implicit Types (tool : ApiTool.t) (args : gmap string Value).


(** The test of [supplied] on one parameter. *)
#[local] Abbreviation supplies args location name :=
  (fun p : ToolParameter.t =>
     String.eqb (ToolParameter.location p) location
     && String.eqb (ToolParameter.name p) name
     && negb (ToolExecutor.is_undefined (ToolExecutor.arg args name))).






End BuildFacts.



Section EncodingFacts.










End EncodingFacts.



(** ** ToolExecutor: the calls and the cache *)

Section CallFacts.
Variable config : Config.
Variable backend : Backend.

Implicit Types (tool : ApiTool.t) (args : gmap string Value) (w : World).

(** A lookup changes the cache at its key only, a store as well. *)
Lemma get_frame {T} now key (c : Cache.t T) :
  let c' := snd (Cache.get now key c) in
  Cache.defaultTTL c' = Cache.defaultTTL c
  /\ (forall k, k <> key -> Cache.cache c' !! k = Cache.cache c !! k)
  /\ (forall k e, Cache.cache c' !! k = Some e -> Cache.cache c !! k = Some e).
Proof.
  unfold Cache.get. destruct (Cache.cache c !! key) as [entry |] eqn:E;
    [| done].
  destruct (Cache.isExpired now entry); [| done]. simpl.
  split; [done |]. split.
  - intros k Hk. by rewrite lookup_delete_ne.
  - intros k e. destruct (decide (key = k)) as [<- | Hk].
    + by rewrite lookup_delete_eq.
    + by rewrite lookup_delete_ne.
Qed.

Lemma set_frame {T} now key (data : T) ttl (c : Cache.t T) :
  let c' := Cache.set now key data ttl c in
  Cache.defaultTTL c' = Cache.defaultTTL c
  /\ forall k, k <> key -> Cache.cache c' !! k = Cache.cache c !! k.
Proof.
  unfold Cache.set. simpl. split; [done |].
  intros k Hk. by rewrite lookup_insert_ne.
Qed.

Lemma dispatch_no_key tool args w :
  ToolExecutor.is_get tool = false ->
  ToolExecutor.dispatch config backend tool args None
  = ToolExecutor.dispatch config backend tool args
      (ToolExecutor.buildCacheKey tool args).
Proof. intros Hget. by rewrite (no_key_unless_get _ _ Hget). Qed.

(** The world after the [try] block, as far as the cache goes. *)
Lemma dispatch_cache tool args w :
  let w' :=
    snd (try_catch
           (ToolExecutor.dispatch config backend tool args
              (ToolExecutor.buildCacheKey tool args))
           (ToolExecutor.rethrow tool) w) in
  Cache.defaultTTL (cache w') = Cache.defaultTTL (cache w)
  /\ (forall k, k <> fingerprint tool args ->
                Cache.cache (cache w') !! k = Cache.cache (cache w) !! k)
  /\ (ToolExecutor.is_get tool = false -> cache w' = cache w).
Proof.
  cbv zeta.
  destruct (ToolExecutor.buildRequest config tool args) as [built | e] eqn:Hb.
  - rewrite (dispatch_valid _ _ _ _ _ _ Hb).
    pose proof (request_world config backend (request_of tool built) w)
      as [Hc _].
    destruct (HttpClient.request config backend (request_of tool built) w)
      as [[response | error] w1]; simpl in *; [| by rewrite Hc].
    unfold cacheable.
    destruct (ToolExecutor.is_get tool); simpl; [| by rewrite Hc].
    destruct ((status response >=? 200)%Z && (status response <? 300)%Z);
      simpl; rewrite Hc; split; try done.
    split; [| done]. intros k Hk. by rewrite lookup_insert_ne.
  - by rewrite (dispatch_invalid _ _ _ _ _ _ _ Hb).
Qed.

End CallFacts.

(** X20. A call changes the cache at most under its own fingerprint:
    every other entry and the default time to live are as before, and a
    call of a tool that is not a GET leaves the cache as it is. *)
Theorem execute_cache_frame
    (config : Config) (backend : Backend) (tool : ApiTool.t)
    (args : gmap string Value) (w : World) :
  let w' := snd (ToolExecutor.execute config backend tool args w) in
  Cache.defaultTTL (cache w') = Cache.defaultTTL (cache w)
  /\ (forall k, k <> fingerprint tool args ->
                Cache.cache (cache w') !! k = Cache.cache (cache w) !! k)
  /\ (ToolExecutor.is_get tool = false -> cache w' = cache w).
Proof.
  cbv zeta. destruct (ToolExecutor.is_get tool) eqn:Hget.
  - rewrite (execute_get _ _ _ _ _ Hget).
    destruct (get_frame (now w) (fingerprint tool args) (cache w))
      as (Httl & Hother & _).
    destruct (cached_response w tool args) as [c |].
    + simpl. split; [done |]. split; [done | done].
    + destruct (dispatch_cache config backend tool args
                  (looked_up tool args w)) as (Httl' & Hother' & _).
      split; [by rewrite Httl' |]. split; [| done].
      intros k Hk. rewrite (Hother' k Hk). by apply Hother.
  - rewrite (execute_other _ _ _ _ _ Hget).
    rewrite (dispatch_no_key config backend _ _ w Hget).
    destruct (dispatch_cache config backend tool args w)
      as (Httl & Hother & Hsame).
    rewrite Hget in Hsame. by rewrite (Hsame eq_refl).
Qed.

Section OutcomeFacts.
Variable config : Config.
Variable backend : Backend.

Implicit Types (tool : ApiTool.t) (args : gmap string Value) (w : World).






End OutcomeFacts.



(** X22. A call that misses the cache, whose arguments pass, and whose
    first attempt is answered has the answer as its result whatever the
    status is: a status outside [[200,300)] is no error and is not
    retried, one attempt is made, and such an answer adds no entry to the
    cache. *)
Theorem answered_call_is_the_result
    (config : Config) (backend : Backend) (tool : ApiTool.t)
    (args : gmap string Value) (w : World)
    (built : ToolExecutor.BuiltRequest) (r : AxiosResponse) (l : nat) :
  (0 <= maxRetries config)%Z ->
  cached_response w tool args = None ->
  ToolExecutor.buildRequest config tool args = Ok built ->
  backend (attempts (trace w)) (request_of tool built) = mkReply (Answer r) l ->
  let run := ToolExecutor.execute config backend tool args w in
  fst run = Ok (to_api r)
  /\ attempts (trace (snd run)) = (attempts (trace w) + 1)%nat
  /\ (cacheable tool r = false ->
      forall k e, Cache.cache (cache (snd run)) !! k = Some e ->
                  Cache.cache (cache w) !! k = Some e).
Proof.
  intros Hmax Hmiss Hb Hreply. cbv zeta.
  destruct (ToolExecutor.is_get tool) eqn:Hget.
  - rewrite (execute_get _ _ _ _ _ Hget), Hmiss.
    rewrite (dispatch_valid _ _ _ _ _ _ Hb).
    destruct (request_first_accepted config backend (request_of tool built)
                (looked_up tool args w) r l Hmax)
      as (w' & -> & Hadd & Hcache); [| done |].
    { cbn [looked_up trace]. rewrite attempts_app, attempts_cons, attempts_nil.
      cbn [is_attempt]. by rewrite !Nat.add_0_r. }
    unfold added in Hadd. cbn [looked_up trace] in Hadd.
    split; [done |]. split.
    + destruct (cacheable tool r); cbn [snd trace]; rewrite Hadd;
        rewrite !attempts_app, !attempts_cons, !attempts_nil;
        cbn [is_attempt]; lia.
    + intros ->. cbn [snd]. rewrite Hcache. cbn [looked_up cache].
      apply (get_frame (now w) (fingerprint tool args) (cache w)).
  - rewrite (execute_other _ _ _ _ _ Hget).
    rewrite (dispatch_no_key config backend _ _ w Hget).
    rewrite (dispatch_valid _ _ _ _ _ _ Hb).
    destruct (request_first_accepted config backend (request_of tool built)
                w r l Hmax Hreply)
      as (w' & -> & Hadd & Hcache); [done |].
    unfold added in Hadd. unfold cacheable. rewrite Hget. cbn [andb snd fst].
    split; [done |]. split.
    + rewrite Hadd, !attempts_app, !attempts_cons, !attempts_nil.
      cbn [is_attempt]. lia.
    + intros _ k e. by rewrite Hcache.
Qed.

Lemma answered_call_is_the_result_witness :
  fst (ToolExecutor.execute Samples.defaults Samples.always_503
         Samples.getPetById Samples.args_id_key Samples.start)
  = Ok (to_api (mkResponse 503 "Service Unavailable" [] VNull))
  /\ attempts (trace (snd (ToolExecutor.execute Samples.defaults
                             Samples.always_503 Samples.getPetById
                             Samples.args_id_key Samples.start)))
     = 1%nat.
Proof.
  destruct (answered_call_is_the_result Samples.defaults Samples.always_503
              Samples.getPetById Samples.args_id_key Samples.start
              (ToolExecutor.mkBuilt
                 "https://petstore3.swagger.io/api/v3/pet/7" []
                 [("Accept", VStr "application/json");
                  ("Content-Type", VStr "application/json");
                  ("api_key", VStr "secret")] VUndefined)
              (mkResponse 503 "Service Unavailable" [] VNull) 5)
    as (Hres & Hatt & _).
  - vm_compute. discriminate.
  - vm_compute. reflexivity.
  - vm_compute. reflexivity.
  - vm_compute. reflexivity.
  - split; [exact Hres | exact Hatt].
Defined.

(** X23. The fingerprint of a call reads the arguments of the parameters
    that are not headers, and of a header named [authorization] in any
    case of letters: two argument maps that agree on those have the same
    fingerprint, whatever their other header arguments are, so a live
    entry stored for the one is the result of a GET with the other,
    without a request. *)
Theorem fingerprint_ignores_headers
    (tool : ApiTool.t) (args1 args2 : gmap string Value) :
  (forall p, p ∈ ApiTool.parameters tool ->
             ToolExecutor.relevant p = true ->
             args1 !! ToolParameter.name p = args2 !! ToolParameter.name p) ->
  fingerprint tool args1 = fingerprint tool args2
  /\ ToolExecutor.buildCacheKey tool args1
     = ToolExecutor.buildCacheKey tool args2
  /\ forall config backend w c,
      cached_response w tool args1 = Some c ->
      let run := ToolExecutor.execute config backend tool args2 w in
      fst run = Ok c
      /\ requests (trace (snd run)) = requests (trace w)
      /\ attempts (trace (snd run)) = attempts (trace w).
Proof.
  intros H.
  assert (ToolExecutor.relevantArgs tool args1
          = ToolExecutor.relevantArgs tool args2) as Hrel.
  { unfold ToolExecutor.relevantArgs. apply fold_left_agree.
    intros p Hp acc. apply list_elem_of_filter in Hp as [Hr Hp].
    apply Is_true_true in Hr. unfold ToolExecutor.arg.
    by rewrite (H p Hp Hr). }
  assert (fingerprint tool args1 = fingerprint tool args2) as Hkey.
  { unfold fingerprint. by rewrite Hrel. }
  split; [exact Hkey |]. split.
  { unfold ToolExecutor.buildCacheKey. by rewrite Hrel. }
  intros config backend w c Hc. cbv zeta.
  assert (ToolExecutor.is_get tool = true) as Hget.
  { unfold cached_response in Hc. by destruct (ToolExecutor.is_get tool). }
  assert (cached_response w tool args2 = Some c) as Hc2.
  { unfold cached_response in *. by rewrite <- Hkey. }
  rewrite (execute_get _ _ _ _ _ Hget), Hc2. cbn [fst snd looked_up trace].
  split; [done |].
  rewrite requests_app, attempts_app, requests_cons, attempts_cons,
    requests_nil, attempts_nil. cbn [is_request is_attempt]. lia.
Qed.

Lemma fingerprint_ignores_headers_witness :
  fingerprint Samples.getPetById Samples.args_id_key
  = fingerprint Samples.getPetById
      (<["id" := VNum 7]> (<["api_key" := VStr "another"]> ∅)).
Proof.
  apply (fingerprint_ignores_headers Samples.getPetById Samples.args_id_key
           (<["id" := VNum 7]> (<["api_key" := VStr "another"]> ∅))).
  intros p Hp Hr. unfold Samples.getPetById in Hp. cbn [ApiTool.parameters] in Hp.
  apply elem_of_cons in Hp as [-> | Hp]; [reflexivity |].
  apply elem_of_cons in Hp as [-> | Hp]; [vm_compute in Hr; discriminate Hr |].
  inversion Hp.
Defined.

(** ** The tool listing *)

Section ListingFacts.

Implicit Types (tool : ApiTool.t) (args : gmap string Value).



End ListingFacts.

